(** * ModularMX/Algorithms: button debouncer and static circular queue

    Shallow embedding of [app/buttons.c] and [app/queue.c].

    Machine integers ([uint8_t], [uint32_t]) are values of [Z]; every
    increment that the C code performs on such a field is written with its
    wrap-around.  Caller-provided storage (the [ButtonType] array, the queue
    byte buffer, the [Data] blocks handed to the queue) is a list whose
    length is the size of the object; an access outside of it, a remainder
    by zero and a shift whose result is not an [int] are undefined in C and
    are reported as a [Fault]. *)

From Stdlib Require Import ZArith Lia Bool Strings.Byte.
From stdpp Require Import base tactics option list numbers.

Local Open Scope Z_scope.

(** ** Undefined behaviour as an error result *)

Inductive Fault : Set :=
  | OutOfBounds      (* access outside of the object pointed to *)
  | DivisionByZero   (* second operand of [%] is zero *)
  | UndefinedShift.  (* shift count negative, or result not an [int] *)

Inductive result (A : Type) : Type :=
  | Ok (a : A)
  | Err (f : Fault).

Arguments Ok {A} a.
Arguments Err {A} f.

#[global] Instance result_bind : MBind result := fun A B k m =>
  match m with
  | Ok a => k a
  | Err f => Err f
  end.

#[global] Instance result_ret : MRet result := fun A a => Ok a.

Definition is_Ok {A : Type} (m : result A) : Prop :=
  match m with Ok _ => True | Err _ => False end.

(** [a[i]] for an array object [a]: defined only inside the object. *)
Definition array_get {A : Type} (a : list A) (i : Z) : result A :=
  if (0 <=? i) && (i <? Z.of_nat (length a)) then
    match a !! Z.to_nat i with
    | Some x => Ok x
    | None => Err OutOfBounds
    end
  else Err OutOfBounds.

(** [a[i] = x]. *)
Definition array_set {A : Type} (a : list A) (i : Z) (x : A) : result (list A) :=
  if (0 <=? i) && (i <? Z.of_nat (length a)) then Ok (<[Z.to_nat i := x]> a)
  else Err OutOfBounds.

(** [memcpy( &dst[doff], &src[soff], n )]: both byte ranges must lie inside
    their objects. *)
Definition memcpy (dst : list byte) (doff : Z) (src : list byte) (soff : Z) (n : Z)
  : result (list byte) :=
  if (0 <=? n) && (0 <=? doff) && (doff + n <=? Z.of_nat (length dst))
     && (0 <=? soff) && (soff + n <=? Z.of_nat (length src))
  then Ok (take (Z.to_nat doff) dst
           ++ take (Z.to_nat n) (drop (Z.to_nat soff) src)
           ++ drop (Z.to_nat (doff + n)) dst)
  else Err OutOfBounds.

(** [a % b] on unsigned operands. *)
Definition umod (a b : Z) : result Z :=
  if b =? 0 then Err DivisionByZero else Ok (a mod b).

(** [1 << n] on [int] operands of 32 bits: defined for a count from 0 to 30,
    where the result is representable. *)
Definition shl_one (n : Z) : result Z :=
  if (0 <=? n) && (n <? 31) then Ok (Z.shiftl 1 n) else Err UndefinedShift.

Definition UINT8_MOD : Z := 256.
Definition UINT32_MOD : Z := 4294967296.

(** ** queue.c *)

Definition FALSE : Z := 0.
Definition TRUE : Z := 1.

Module Que.
(** [QueueType]; [Buffer] holds the bytes of the storage the pointer
    designates. *)
Record QueueType : Type := mk {
  Buffer : list byte;
  Elements : Z;
  Size : Z;
  Head : Z;
  Tail : Z;
  Empty : Z;
  Full : Z
}.

Definition set_Buffer (v : list byte) (q : QueueType) : QueueType :=
  mk v (Elements q) (Size q) (Head q) (Tail q) (Empty q) (Full q).
Definition set_Head (v : Z) (q : QueueType) : QueueType :=
  mk (Buffer q) (Elements q) (Size q) v (Tail q) (Empty q) (Full q).
Definition set_Tail (v : Z) (q : QueueType) : QueueType :=
  mk (Buffer q) (Elements q) (Size q) (Head q) v (Empty q) (Full q).
Definition set_Empty (v : Z) (q : QueueType) : QueueType :=
  mk (Buffer q) (Elements q) (Size q) (Head q) (Tail q) v (Full q).
Definition set_Full (v : Z) (q : QueueType) : QueueType :=
  mk (Buffer q) (Elements q) (Size q) (Head q) (Tail q) (Empty q) v.
End Que.

Abbreviation QueueType := Que.QueueType.

Definition Queue_Init (Buffer : list byte) (Elements : Z) (Size : Z) : QueueType :=
  Que.mk Buffer Elements Size 0 0 TRUE FALSE.

Definition Queue_WriteData (Queue : QueueType) (Data : list byte)
  : result (Z * QueueType) :=
  if Que.Full Queue =? FALSE then
    buf ← memcpy (Que.Buffer Queue)
                   ((Que.Head Queue * Que.Size Queue) mod UINT32_MOD)
                   Data 0 (Que.Size Queue);
    let Queue := Que.set_Buffer buf Queue in
    let Queue := Que.set_Empty FALSE Queue in
    let Queue := Que.set_Head ((Que.Head Queue + 1) mod UINT32_MOD) Queue in
    h ← umod (Que.Head Queue) (Que.Elements Queue);
    let Queue := Que.set_Head h Queue in
    let Queue :=
      if Que.Head Queue =? Que.Tail Queue then Que.set_Full TRUE Queue else Queue in
    Ok (TRUE, Queue)
  else Ok (FALSE, Queue).

(** The block [Data] points to is returned with the element copied over its
    first [Size] bytes. *)
Definition Queue_ReadData (Queue : QueueType) (Data : list byte)
  : result (Z * list byte * QueueType) :=
  if Que.Empty Queue =? FALSE then
    out ← memcpy Data 0 (Que.Buffer Queue)
                   ((Que.Tail Queue * Que.Size Queue) mod UINT32_MOD)
                   (Que.Size Queue);
    let Queue := Que.set_Full FALSE Queue in
    let Queue := Que.set_Tail ((Que.Tail Queue + 1) mod UINT32_MOD) Queue in
    t ← umod (Que.Tail Queue) (Que.Elements Queue);
    let Queue := Que.set_Tail t Queue in
    let Queue :=
      if Que.Tail Queue =? Que.Head Queue then Que.set_Empty TRUE Queue else Queue in
    Ok (TRUE, out, Queue)
  else Ok (FALSE, Data, Queue).

Definition Queue_isQueueEmpty (Queue : QueueType) : Z * QueueType :=
  (Que.Empty Queue, Queue).

Definition Queue_FlushQueue (Queue : QueueType) : QueueType :=
  Queue_Init (Que.Buffer Queue) (Que.Elements Queue) (Que.Size Queue).

(** ** buttons.h *)

(** [BtnEvents] *)
Inductive BtnEvents : Set :=
  | BTN_IDLE
  | BTN_PRESSED
  | BTN_RELEASED.

Definition BTN_INACTIVE : Z := 0.
Definition BTN_ACTIVE : Z := 1.

(** [ButtonStates] (buttons.c) *)
Inductive ButtonStates : Set :=
  | ST_IDLE
  | ST_PRESS
  | ST_HOLD
  | ST_RELEASE.

Module Btn.
Record ButtonType : Type := mk {
  Pin : Z;
  Port : Z;
  Counter : Z;
  Event : BtnEvents;
  Status : Z;
  ActiveLevel : Z;
  smState : ButtonStates
}.

Definition set_Pin (v : Z) (b : ButtonType) : ButtonType :=
  mk v (Port b) (Counter b) (Event b) (Status b) (ActiveLevel b) (smState b).
Definition set_Port (v : Z) (b : ButtonType) : ButtonType :=
  mk (Pin b) v (Counter b) (Event b) (Status b) (ActiveLevel b) (smState b).
Definition set_Counter (v : Z) (b : ButtonType) : ButtonType :=
  mk (Pin b) (Port b) v (Event b) (Status b) (ActiveLevel b) (smState b).
Definition set_Event (v : BtnEvents) (b : ButtonType) : ButtonType :=
  mk (Pin b) (Port b) (Counter b) v (Status b) (ActiveLevel b) (smState b).
Definition set_Status (v : Z) (b : ButtonType) : ButtonType :=
  mk (Pin b) (Port b) (Counter b) (Event b) v (ActiveLevel b) (smState b).
Definition set_ActiveLevel (v : Z) (b : ButtonType) : ButtonType :=
  mk (Pin b) (Port b) (Counter b) (Event b) (Status b) v (smState b).
Definition set_smState (v : ButtonStates) (b : ButtonType) : ButtonType :=
  mk (Pin b) (Port b) (Counter b) (Event b) (Status b) (ActiveLevel b) v.
End Btn.

Abbreviation ButtonType := Btn.ButtonType.

Module Kbd.
(** [KeyboardType]; [BtnBuffer] holds the array the pointer designates. *)
Record KeyboardType : Type := mk {
  Buttons : Z;
  Sample : Z;
  Counter : Z;
  BtnBuffer : list ButtonType
}.

Definition set_Counter (v : Z) (k : KeyboardType) : KeyboardType :=
  mk (Buttons k) (Sample k) v (BtnBuffer k).
Definition set_BtnBuffer (v : list ButtonType) (k : KeyboardType) : KeyboardType :=
  mk (Buttons k) (Sample k) (Counter k) v.
End Kbd.

Abbreviation KeyboardType := Kbd.KeyboardType.

(** ** buttons.c *)

(** Modelled from the spec: the port handles [GPIOA] .. [GPIOF] and the pin
    read [HAL_GPIO_ReadPin] come from [bsp.h], which is not among the
    sources.  The handles are kept as names; the pin read, "a function
    mapping (port, pin) to a logic level", is a parameter of the functions
    that sample. *)
Inductive GPIO_TypeDef : Set :=
  | GPIOA | GPIOB | GPIOC | GPIOD | GPIOE | GPIOF.

Definition Ports : list GPIO_TypeDef := [GPIOA; GPIOB; GPIOC; GPIOD; GPIOE; GPIOF].

Definition PinReader : Type := GPIO_TypeDef -> Z -> Z.

Definition Buttons_Init (NButtons Samples : Z) (Buffer : list ButtonType) : KeyboardType :=
  Kbd.mk NButtons Samples 0 Buffer.

(** [Buttons->BtnBuffer[i].field = v], one field of one slot. *)
Definition BtnBuffer_store (Buttons : KeyboardType) (i : Z)
    (f : ButtonType -> ButtonType) : result KeyboardType :=
  b ← array_get (Kbd.BtnBuffer Buttons) i;
  buf ← array_set (Kbd.BtnBuffer Buttons) i (f b);
  Ok (Kbd.set_BtnBuffer buf Buttons).

Definition Buttons_Register (Buttons : KeyboardType) (Pin Port ActiveLevel : Z)
  : result (Z * KeyboardType) :=
  let result := 0 in
  if Kbd.Counter Buttons <? Kbd.Buttons Buttons then
    Buttons ← BtnBuffer_store Buttons (Kbd.Counter Buttons) (Btn.set_Pin Pin);
    Buttons ← BtnBuffer_store Buttons (Kbd.Counter Buttons) (Btn.set_Port Port);
    Buttons ← BtnBuffer_store Buttons (Kbd.Counter Buttons) (Btn.set_ActiveLevel ActiveLevel);
    Buttons ← BtnBuffer_store Buttons (Kbd.Counter Buttons) (Btn.set_Status BTN_INACTIVE);
    Buttons ← BtnBuffer_store Buttons (Kbd.Counter Buttons) (Btn.set_Event BTN_IDLE);
    Buttons ← BtnBuffer_store Buttons (Kbd.Counter Buttons) (Btn.set_smState ST_IDLE);
    let Buttons := Kbd.set_Counter ((Kbd.Counter Buttons + 1) mod UINT8_MOD) Buttons in
    let result := Kbd.Counter Buttons in
    Ok (result, Buttons)
  else Ok (result, Buttons).

Definition Buttons_GetStatus (Buttons : KeyboardType) (Button : Z)
  : result (Z * KeyboardType) :=
  let result := BTN_INACTIVE in
  if Button <? Kbd.Counter Buttons then
    b ← array_get (Kbd.BtnBuffer Buttons) (Button - 1);
    let result := Btn.Status b in
    Ok (result, Buttons)
  else Ok (result, Buttons).

Definition Buttons_GetEvent (Buttons : KeyboardType) (Button : Z)
  : result (BtnEvents * KeyboardType) :=
  let result := BTN_IDLE in
  if Button <=? Kbd.Counter Buttons then
    b ← array_get (Kbd.BtnBuffer Buttons) (Button - 1);
    let result := Btn.Event b in
    Buttons ← BtnBuffer_store Buttons (Button - 1) (Btn.set_Event BTN_IDLE);
    Ok (result, Buttons)
  else Ok (result, Buttons).

(** [HAL_GPIO_ReadPin( Ports[Button->Port], (1<<Button->Pin) )] *)
Definition read_button (HAL_GPIO_ReadPin : PinReader) (Button : ButtonType) : result Z :=
  port ← array_get Ports (Btn.Port Button);
  mask ← shl_one (Btn.Pin Button);
  Ok (HAL_GPIO_ReadPin port mask).

Definition Sample_Button (HAL_GPIO_ReadPin : PinReader) (Button : ButtonType) (Samples : Z)
  : result ButtonType :=
  match Btn.smState Button with
  | ST_IDLE =>
      level ← read_button HAL_GPIO_ReadPin Button;
      if level =? Btn.ActiveLevel Button then
        let Button := Btn.set_smState ST_PRESS Button in
        let Button := Btn.set_Counter 0 Button in
        Ok Button
      else Ok Button
  | ST_PRESS =>
      let Button := Btn.set_Counter ((Btn.Counter Button + 1) mod UINT8_MOD) Button in
      level ← read_button HAL_GPIO_ReadPin Button;
      let Button :=
        if negb (level =? Btn.ActiveLevel Button)
        then Btn.set_smState ST_IDLE Button else Button in
      let Button :=
        if Samples <=? Btn.Counter Button then
          let Button := Btn.set_Event BTN_PRESSED Button in
          let Button := Btn.set_Status BTN_ACTIVE Button in
          Btn.set_smState ST_HOLD Button
        else Button in
      Ok Button
  | ST_HOLD =>
      level ← read_button HAL_GPIO_ReadPin Button;
      if negb (level =? Btn.ActiveLevel Button) then
        let Button := Btn.set_smState ST_RELEASE Button in
        let Button := Btn.set_Counter 0 Button in
        Ok Button
      else Ok Button
  | ST_RELEASE =>
      let Button := Btn.set_Counter ((Btn.Counter Button + 1) mod UINT8_MOD) Button in
      level ← read_button HAL_GPIO_ReadPin Button;
      let Button :=
        if level =? Btn.ActiveLevel Button
        then Btn.set_smState ST_HOLD Button else Button in
      let Button :=
        if Samples <=? Btn.Counter Button then
          let Button := Btn.set_Event BTN_RELEASED Button in
          let Button := Btn.set_Status BTN_INACTIVE Button in
          Btn.set_smState ST_IDLE Button
        else Button in
      Ok Button
  end.

(** The [for] loop of [Buttons_MainFunction]: [n] iterations are left and
    the loop variable is [btn]. *)
Fixpoint MainFunction_loop (HAL_GPIO_ReadPin : PinReader) (Samples : Z)
    (n : nat) (btn : Z) (buf : list ButtonType) : result (list ButtonType) :=
  match n with
  | O => Ok buf
  | S n' =>
      b ← array_get buf btn;
      b' ← Sample_Button HAL_GPIO_ReadPin b Samples;
      buf' ← array_set buf btn b';
      MainFunction_loop HAL_GPIO_ReadPin Samples n' (btn + 1) buf'
  end.

Definition Buttons_MainFunction (HAL_GPIO_ReadPin : PinReader) (Buttons : KeyboardType)
  : result KeyboardType :=
  buf ← MainFunction_loop HAL_GPIO_ReadPin (Kbd.Sample Buttons)
          (Z.to_nat (Kbd.Counter Buttons)) 0 (Kbd.BtnBuffer Buttons);
  Ok (Kbd.set_BtnBuffer buf Buttons).

(** ** Sequences of calls *)

(** One call of the queue interface, with the block handed to it. *)
Inductive QueueOp : Type :=
  | OpWriteData (Data : list byte)
  | OpReadData (Data : list byte)
  | OpIsQueueEmpty
  | OpFlushQueue.

Definition Queue_step (Queue : QueueType) (op : QueueOp) : result QueueType :=
  match op with
  | OpWriteData Data => r ← Queue_WriteData Queue Data; Ok (snd r)
  | OpReadData Data => r ← Queue_ReadData Queue Data; Ok (snd r)
  | OpIsQueueEmpty => Ok (snd (Queue_isQueueEmpty Queue))
  | OpFlushQueue => Ok (Queue_FlushQueue Queue)
  end.

Fixpoint Queue_run (Queue : QueueType) (ops : list QueueOp) : result QueueType :=
  match ops with
  | [] => Ok Queue
  | op :: ops' => Queue' ← Queue_step Queue op; Queue_run Queue' ops'
  end.

(** A block has room for one element of [Size] bytes. *)
Definition block_fits (Size : Z) (Data : list byte) : Prop :=
  Size <= Z.of_nat (length Data).

(** The block of every write and of every read has room for one element. *)
Definition op_fits (Size : Z) (op : QueueOp) : Prop :=
  match op with
  | OpWriteData Data | OpReadData Data => block_fits Size Data
  | OpIsQueueEmpty | OpFlushQueue => True
  end.

(** Writes [elems] one after the other; the return values are collected. *)
Fixpoint Queue_write_all (Queue : QueueType) (elems : list (list byte))
  : result (list Z * QueueType) :=
  match elems with
  | [] => Ok ([], Queue)
  | e :: elems' =>
      r ← Queue_WriteData Queue e;
      rs ← Queue_write_all (snd r) elems';
      Ok (fst r :: fst rs, snd rs)
  end.

(** Reads once into each block of [dsts]; return value and block after the
    call are collected. *)
Fixpoint Queue_read_all (Queue : QueueType) (dsts : list (list byte))
  : result (list (Z * list byte) * QueueType) :=
  match dsts with
  | [] => Ok ([], Queue)
  | d :: dsts' =>
      r ← Queue_ReadData Queue d;
      rs ← Queue_read_all (snd r) dsts';
      Ok (fst r :: fst rs, snd rs)
  end.

Definition Queue_inv (Queue : QueueType) : Prop :=
  0 <= Que.Head Queue < Que.Elements Queue
  /\ 0 <= Que.Tail Queue < Que.Elements Queue
  /\ (Que.Full Queue = TRUE -> Que.Head Queue = Que.Tail Queue)
  /\ (Que.Empty Queue = TRUE -> Que.Head Queue = Que.Tail Queue)
  /\ ~ (Que.Full Queue = TRUE /\ Que.Empty Queue = TRUE).

(** Storage that is large enough for [Elements] slots of [Size] bytes and
    whose byte offsets are representable in [uint32_t]. *)
Definition Queue_storage_ok (Buffer : list byte) (Elements Size : Z) : Prop :=
  0 <= Size < UINT8_MOD
  /\ 1 <= Elements < UINT32_MOD
  /\ Elements * Size <= Z.of_nat (length Buffer)
  /\ Elements * Size <= UINT32_MOD.

(** What the storage [buf0] holds once the elements [pre] have been written
    into its first slots, [s] bytes each. *)
Definition written_image (s : nat) (buf0 : list byte) (pre : list (list byte))
  : list byte :=
  concat (map (take s) pre) ++ drop (length pre * s) buf0.

(** The queue after the elements [pre] were written to the initialised
    queue, as a closed form. *)
Definition Queue_after_writes (buf0 : list byte) (C S : Z) (pre : list (list byte))
  : QueueType :=
  let n := Z.of_nat (length pre) in
  Que.mk (written_image (Z.to_nat S) buf0 pre) C S
         (if n =? C then 0 else n) 0
         (if n =? 0 then TRUE else FALSE)
         (if n =? C then TRUE else FALSE).

(** The queue after [j] reads from the queue filled with [elems], as a
    closed form. *)
Definition Queue_after_reads (buf0 : list byte) (C S : Z) (elems : list (list byte))
    (j : nat) : QueueType :=
  let n := Z.of_nat j in
  Que.mk (written_image (Z.to_nat S) buf0 elems) C S
         0 (if n =? C then 0 else n)
         (if n =? C then TRUE else FALSE)
         (if n =? 0 then TRUE else FALSE).

(** The block [d] after an element [e] of [s] bytes was read into it. *)
Definition block_after_read (s : nat) (e d : list byte) : Z * list byte :=
  (TRUE, take s e ++ drop s d).

(** A tick on which every pin shows [level]. *)
Definition all_pins (level : Z) : PinReader := fun _ _ => level.

(** One button sampled once per entry of [levels]. *)
Fixpoint Sample_run (levels : list Z) (Button : ButtonType) (Samples : Z)
  : result ButtonType :=
  match levels with
  | [] => Ok Button
  | level :: levels' =>
      Button' ← Sample_Button (all_pins level) Button Samples;
      Sample_run levels' Button' Samples
  end.

(** [Buttons_MainFunction] called once per entry of [ticks]; the keyboard
    after each call is recorded. *)
Fixpoint MainFunction_trace (ticks : list PinReader) (Buttons : KeyboardType)
  : result (list KeyboardType) :=
  match ticks with
  | [] => Ok []
  | tick :: ticks' =>
      Buttons' ← Buttons_MainFunction tick Buttons;
      rest ← MainFunction_trace ticks' Buttons';
      Ok (Buttons' :: rest)
  end.

(** What the consumer and the state machine hold for the button in slot
    [i]: phase, sample counter, pending event, confirmed status. *)
Definition observe (i : nat) (Buttons : KeyboardType)
  : option (ButtonStates * Z * BtnEvents * Z) :=
  b ← Kbd.BtnBuffer Buttons !! i;
  Some (Btn.smState b, Btn.Counter b, Btn.Event b, Btn.Status b).

(** The fields of a button that describe its wiring. *)
Definition config (b : ButtonType) : Z * Z * Z :=
  (Btn.Pin b, Btn.Port b, Btn.ActiveLevel b).

(** The storage holds every registered button, and the count fits its
    [uint8_t] field. *)
Definition Keyboard_ok (Buttons : KeyboardType) : Prop :=
  0 <= Kbd.Counter Buttons < UINT8_MOD
  /\ Kbd.Counter Buttons <= Z.of_nat (length (Kbd.BtnBuffer Buttons)).

(** The button names an entry of [Ports] and a pin for which the mask
    [1 << Pin] is defined. *)
Definition wired (b : ButtonType) : Prop :=
  0 <= Btn.Port b < Z.of_nat (length Ports) /\ 0 <= Btn.Pin b < 31.

(** Every registered button is wired to a port of [Ports] and a pin from
    0 to 30. *)
Definition wiring_ok (Buttons : KeyboardType) : Prop :=
  forall (i : nat) (b : ButtonType),
    Z.of_nat i < Kbd.Counter Buttons ->
    Kbd.BtnBuffer Buttons !! i = Some b ->
    wired b.

(** What is known of a button after the samples [hist], for the threshold
    [N] and the active level [A]: the status is inactive in [ST_IDLE] and
    [ST_PRESS], active in [ST_HOLD] and [ST_RELEASE], and in [ST_PRESS]
    the counter is below the threshold and as many samples as the counter
    says, plus one, were at the active level. *)
Definition debounce_inv (N A : Z) (hist : list Z) (b : ButtonType) : Prop :=
  Btn.ActiveLevel b = A
  /\ match Btn.smState b with
     | ST_IDLE => Btn.Status b = BTN_INACTIVE
     | ST_PRESS =>
         Btn.Status b = BTN_INACTIVE
         /\ 0 <= Btn.Counter b < N
         /\ exists older,
              hist = older ++ replicate (Z.to_nat (Btn.Counter b + 1)) A
     | ST_HOLD | ST_RELEASE => Btn.Status b = BTN_ACTIVE
     end.

(** Storage as the integrator hands it over: one zeroed [ButtonType]. *)
Definition zeroed_button : ButtonType := Btn.mk 0 0 0 BTN_IDLE 0 0 ST_IDLE.

(** One button on pin 0 of port A, active high, threshold [Samples]. *)
Definition one_button_keyboard (Samples : Z) : result KeyboardType :=
  r ← Buttons_Register (Buttons_Init 1 Samples [zeroed_button]) 0 0 1;
  Ok (snd r).

(** The one-button keyboard with threshold 1 after two ticks at the active
    level. *)
Definition pressed_keyboard : result KeyboardType :=
  kb ← one_button_keyboard 1;
  kb ← Buttons_MainFunction (all_pins 1) kb;
  Buttons_MainFunction (all_pins 1) kb.

(** The one-button keyboard with threshold [Samples], ticked once per entry
    of [levels]; what is held for the button after each tick. *)
Definition scenario_trace (Samples : Z) (levels : list Z)
  : result (list (option (ButtonStates * Z * BtnEvents * Z))) :=
  kb ← one_button_keyboard Samples;
  tr ← MainFunction_trace (map all_pins levels) kb;
  Ok (map (observe 0) tr).

(** The value of [pressed_keyboard]: one registered button, confirmed
    pressed, its event not yet fetched. *)
Definition held_keyboard : KeyboardType :=
  Kbd.mk 1 1 1 [Btn.mk 0 0 1 BTN_PRESSED BTN_ACTIVE 1 ST_HOLD].

(** A button as [Buttons_Register] leaves it, on pin 0 of port A, active
    high. *)
Definition fresh_button : ButtonType :=
  Btn.mk 0 0 0 BTN_IDLE BTN_INACTIVE 1 ST_IDLE.

(** ** The queue as a bounded first-in first-out list *)

(** What one call of the queue interface hands back to its caller: the
    return value, and for a read the block after the call. *)
Inductive QueueOut : Type :=
  | OutWriteData (r : Z)
  | OutReadData (r : Z) (Data : list byte)
  | OutIsQueueEmpty (r : Z)
  | OutFlushQueue.

Definition Queue_call (Queue : QueueType) (op : QueueOp)
  : result (QueueOut * QueueType) :=
  match op with
  | OpWriteData Data =>
      r ← Queue_WriteData Queue Data; Ok (OutWriteData (fst r), snd r)
  | OpReadData Data =>
      r ← Queue_ReadData Queue Data;
      Ok (OutReadData (fst (fst r)) (snd (fst r)), snd r)
  | OpIsQueueEmpty =>
      let r := Queue_isQueueEmpty Queue in Ok (OutIsQueueEmpty (fst r), snd r)
  | OpFlushQueue => Ok (OutFlushQueue, Queue_FlushQueue Queue)
  end.

Fixpoint Queue_calls (Queue : QueueType) (ops : list QueueOp)
  : result (list QueueOut * QueueType) :=
  match ops with
  | [] => Ok ([], Queue)
  | op :: ops' =>
      r ← Queue_call Queue op;
      rs ← Queue_calls (snd r) ops';
      Ok (fst r :: fst rs, snd rs)
  end.

(** The reference the queue is compared with: the list of the stored
    elements, oldest first, at most [C] of them, [s] bytes each. *)
Definition fifo_call (C : Z) (s : nat) (l : list (list byte)) (op : QueueOp)
  : QueueOut * list (list byte) :=
  match op with
  | OpWriteData Data =>
      if Z.of_nat (length l) <? C
      then (OutWriteData TRUE, l ++ [take s Data])
      else (OutWriteData FALSE, l)
  | OpReadData Data =>
      match l with
      | [] => (OutReadData FALSE Data, [])
      | e :: l' => (OutReadData TRUE (e ++ drop s Data), l')
      end
  | OpIsQueueEmpty =>
      (OutIsQueueEmpty (match l with [] => TRUE | _ :: _ => FALSE end), l)
  | OpFlushQueue => (OutFlushQueue, [])
  end.

Fixpoint fifo_calls (C : Z) (s : nat) (l : list (list byte)) (ops : list QueueOp)
  : list QueueOut * list (list byte) :=
  match ops with
  | [] => ([], l)
  | op :: ops' =>
      let r := fifo_call C s l op in
      let rs := fifo_calls C s (snd r) ops' in
      (fst r :: fst rs, snd rs)
  end.

(** The bytes of slot [i] of the storage. *)
Definition slot (s : nat) (buf : list byte) (i : nat) : list byte :=
  take s (drop (i * s) buf).

(** The queue [Queue] holds the elements [l]: the indices are in range,
    [Head] is [length l] slots after [Tail] modulo the capacity, the flags
    tell the two cases [Head = Tail] apart, and the k-th element is in the
    k-th slot after [Tail]. *)
Definition Queue_holds (buf0 : list byte) (C S : Z) (Queue : QueueType)
    (l : list (list byte)) : Prop :=
  Que.Elements Queue = C /\ Que.Size Queue = S
  /\ length (Que.Buffer Queue) = length buf0
  /\ 0 <= Que.Tail Queue < C
  /\ Z.of_nat (length l) <= C
  /\ Que.Head Queue = (Que.Tail Queue + Z.of_nat (length l)) mod C
  /\ Que.Full Queue = (if Z.of_nat (length l) =? C then TRUE else FALSE)
  /\ Que.Empty Queue = (if Z.of_nat (length l) =? 0 then TRUE else FALSE)
  /\ forall (k : nat) (e : list byte),
       l !! k = Some e ->
       slot (Z.to_nat S) (Que.Buffer Queue)
            (Z.to_nat ((Que.Tail Queue + Z.of_nat k) mod C)) = e.

(** ** More about the buttons *)

(** What is known of a button after the samples [hist], on both edges: as
    [debounce_inv] for the press, and in [ST_RELEASE] the counter is below
    the threshold and as many samples as the counter says, plus one, were
    away from the active level. *)
Definition window_inv (N A : Z) (hist : list Z) (b : ButtonType) : Prop :=
  Btn.ActiveLevel b = A
  /\ match Btn.smState b with
     | ST_IDLE => Btn.Status b = BTN_INACTIVE
     | ST_PRESS =>
         Btn.Status b = BTN_INACTIVE
         /\ 0 <= Btn.Counter b < N
         /\ exists older,
              hist = older ++ replicate (Z.to_nat (Btn.Counter b + 1)) A
     | ST_HOLD => Btn.Status b = BTN_ACTIVE
     | ST_RELEASE =>
         Btn.Status b = BTN_ACTIVE
         /\ 0 <= Btn.Counter b < N
         /\ exists older recent,
              hist = older ++ recent
              /\ length recent = Z.to_nat (Btn.Counter b + 1)
              /\ Forall (fun l => l <> A) recent
     end.

(** [Buttons_Register] called once per entry of [cfgs] (pin, port, active
    level); the return values are collected. *)
Fixpoint Register_all (Buttons : KeyboardType) (cfgs : list (Z * Z * Z))
  : result (list Z * KeyboardType) :=
  match cfgs with
  | [] => Ok ([], Buttons)
  | (Pin, Port, ActiveLevel) :: cfgs' =>
      r ← Buttons_Register Buttons Pin Port ActiveLevel;
      rs ← Register_all (snd r) cfgs';
      Ok (fst r :: fst rs, snd rs)
  end.

(** Everything of a button except its pending event. *)
Definition debounce_view (b : ButtonType) : Z * Z * Z * Z * Z * ButtonStates :=
  (Btn.Pin b, Btn.Port b, Btn.Counter b, Btn.Status b, Btn.ActiveLevel b,
   Btn.smState b).

(** ** Ticks and calls in sequence *)

(** The tick that took the button from [b] to [b'] confirmed an edge: a
    press ([ST_PRESS] to [ST_HOLD]) or a release ([ST_RELEASE] to
    [ST_IDLE]). *)
Definition confirms_edge (b b' : ButtonType) : bool :=
  match Btn.smState b, Btn.smState b' with
  | ST_PRESS, ST_HOLD => true
  | ST_RELEASE, ST_IDLE => true
  | _, _ => false
  end.

(** [Buttons_MainFunction] called once per entry of [ticks] takes the
    keyboard from [kb] to [kbn], and in none of these ticks the button in
    slot [i] confirms an edge. *)
Fixpoint quiet_ticks (i : nat) (ticks : list PinReader) (kb kbn : KeyboardType)
  : Prop :=
  match ticks with
  | [] => kbn = kb
  | tick :: ticks' =>
      exists (kb1 : KeyboardType) (b b1 : ButtonType),
        Buttons_MainFunction tick kb = Ok kb1
        /\ Kbd.BtnBuffer kb !! i = Some b
        /\ Kbd.BtnBuffer kb1 !! i = Some b1
        /\ confirms_edge b b1 = false
        /\ quiet_ticks i ticks' kb1 kbn
  end.

(** One call of the button interface. *)
Inductive ButtonsOp : Type :=
  | OpRegister (Pin Port ActiveLevel : Z)
  | OpGetStatus (Button : Z)
  | OpGetEvent (Button : Z)
  | OpMainFunction (HAL_GPIO_ReadPin : PinReader).

Definition Buttons_step (Buttons : KeyboardType) (op : ButtonsOp)
  : result KeyboardType :=
  match op with
  | OpRegister Pin Port ActiveLevel =>
      r ← Buttons_Register Buttons Pin Port ActiveLevel; Ok (snd r)
  | OpGetStatus Button => r ← Buttons_GetStatus Buttons Button; Ok (snd r)
  | OpGetEvent Button => r ← Buttons_GetEvent Buttons Button; Ok (snd r)
  | OpMainFunction HAL_GPIO_ReadPin => Buttons_MainFunction HAL_GPIO_ReadPin Buttons
  end.

Fixpoint Buttons_run (Buttons : KeyboardType) (ops : list ButtonsOp)
  : result KeyboardType :=
  match ops with
  | [] => Ok Buttons
  | op :: ops' => Buttons' ← Buttons_step Buttons op; Buttons_run Buttons' ops'
  end.

(** A keyboard for two buttons with one registered, a sequence of calls on
    it, and the keyboard that sequence ends in. *)
Definition demo_keyboard : KeyboardType :=
  Kbd.mk 2 1 1 [fresh_button; zeroed_button].

Definition demo_calls : list ButtonsOp :=
  [OpMainFunction (all_pins 1); OpMainFunction (all_pins 1);
   OpRegister 5 1 0; OpGetEvent 1; OpGetStatus 1; OpMainFunction (all_pins 0)].

Definition demo_keyboard_after : KeyboardType :=
  Kbd.mk 2 1 2 [Btn.mk 0 0 0 BTN_IDLE BTN_ACTIVE 1 ST_RELEASE;
                Btn.mk 5 1 0 BTN_IDLE BTN_INACTIVE 0 ST_PRESS].

(* ===================================================================== *)
(** * Properties *)
(* ===================================================================== *)

(** ** Generic facts about [result] *)

Lemma bind_Ok {A B : Type} (m : result A) (k : A -> result B) (b : B) :
  (m ≫= k) = Ok b -> exists a, m = Ok a /\ k a = Ok b.
Proof. destruct m as [a|f]; simpl; [eauto | discriminate]. Qed.

Ltac inv_bind H :=
  let a := fresh "a" in
  let Ha := fresh "Ha" in
  apply bind_Ok in H; destruct H as (a & Ha & H).

Tactic Notation "inv_bind_as" hyp(H) ident(a) ident(Ha) :=
  apply bind_Ok in H; destruct H as (a & Ha & H).

Lemma umod_Ok (a b r : Z) : umod a b = Ok r -> b <> 0 /\ r = a mod b.
Proof.
  unfold umod. destruct (Z.eqb_spec b 0); [discriminate |].
  intros [= <-]. auto.
Qed.

Lemma umod_pos (a b : Z) : b <> 0 -> umod a b = Ok (a mod b).
Proof. intros Hb. unfold umod. destruct (Z.eqb_spec b 0); [contradiction | reflexivity]. Qed.

(** ** queue.c: the index and flag invariant *)

Section QueueInvariant.
Variable C : Z.
Hypothesis C_pos : 1 <= C.

Lemma Queue_Init_inv (buf : list byte) (S : Z) : Queue_inv (Queue_Init buf C S).
Proof.
  unfold Queue_inv, Queue_Init, TRUE, FALSE; simpl.
  repeat split; try lia; try (intros [? ?]; lia).
Qed.

Lemma Queue_WriteData_inv (q q' : QueueType) (Data : list byte) (r : Z) :
  Que.Elements q = C -> Queue_inv q ->
  Queue_WriteData q Data = Ok (r, q') ->
  Que.Elements q' = C /\ Queue_inv q'.
Proof.
  intros HC (HH & HT & HF & HE & HFE) Hw. unfold Queue_WriteData in Hw.
  destruct (Z.eqb_spec (Que.Full q) FALSE) as [Hfull|Hfull].
  - inv_bind Hw. simpl in Hw. inv_bind Hw.
    apply umod_Ok in Ha0 as [_ ->]. simpl in Hw. rewrite HC in *.
    pose proof (Z.mod_pos_bound ((Que.Head q + 1) mod UINT32_MOD) C ltac:(lia)) as Hb.
    destruct (Z.eqb_spec (((Que.Head q + 1) mod UINT32_MOD) mod C) (Que.Tail q)) as [Heq|Hne];
      injection Hw as <- <-; unfold Queue_inv, TRUE, FALSE in *; simpl;
      rewrite ?HC; repeat split; try lia; try (intros [? ?]; lia).
  - injection Hw as <- <-. split; [exact HC | unfold Queue_inv; auto 10].
Qed.

Lemma Queue_ReadData_inv (q q' : QueueType) (Data out : list byte) (r : Z) :
  Que.Elements q = C -> Queue_inv q ->
  Queue_ReadData q Data = Ok (r, out, q') ->
  Que.Elements q' = C /\ Queue_inv q'.
Proof.
  intros HC (HH & HT & HF & HE & HFE) Hr. unfold Queue_ReadData in Hr.
  destruct (Z.eqb_spec (Que.Empty q) FALSE) as [Hemp|Hemp].
  - inv_bind Hr. simpl in Hr. inv_bind Hr.
    apply umod_Ok in Ha0 as [_ ->]. simpl in Hr. rewrite HC in *.
    pose proof (Z.mod_pos_bound ((Que.Tail q + 1) mod UINT32_MOD) C ltac:(lia)) as Hb.
    destruct (Z.eqb_spec (((Que.Tail q + 1) mod UINT32_MOD) mod C) (Que.Head q)) as [Heq|Hne];
      injection Hr as <- <- <-; unfold Queue_inv, TRUE, FALSE in *; simpl;
      rewrite ?HC; repeat split; try lia; try (intros [? ?]; lia).
  - injection Hr as <- <- <-. split; [exact HC | unfold Queue_inv; auto 10].
Qed.

Lemma Queue_step_inv (q q' : QueueType) (op : QueueOp) :
  Que.Elements q = C -> Queue_inv q ->
  Queue_step q op = Ok q' ->
  Que.Elements q' = C /\ Queue_inv q'.
Proof.
  intros HC Hinv Hs. destruct op as [Data|Data| |]; simpl in Hs.
  - inv_bind Hs. destruct a as [r q1]. injection Hs as <-.
    eapply Queue_WriteData_inv; eauto.
  - inv_bind Hs. destruct a as [[r out] q1]. injection Hs as <-.
    eapply Queue_ReadData_inv; eauto.
  - injection Hs as <-. auto.
  - injection Hs as <-. unfold Queue_FlushQueue. rewrite HC.
    split; [reflexivity | apply Queue_Init_inv].
Qed.

Lemma Queue_run_inv (ops : list QueueOp) (q q' : QueueType) :
  Que.Elements q = C -> Queue_inv q ->
  Queue_run q ops = Ok q' ->
  Que.Elements q' = C /\ Queue_inv q'.
Proof.
  revert q. induction ops as [|op ops IH]; intros q HC Hinv Hrun; simpl in Hrun.
  - injection Hrun as <-. auto.
  - inv_bind Hrun. destruct (Queue_step_inv q a op HC Hinv Ha) as [HC' Hinv'].
    eapply IH; eauto.
Qed.
End QueueInvariant.

(** C3. Every queue state reached from [Queue_Init] with a capacity of at
    least one element, by any sequence of [Queue_WriteData],
    [Queue_ReadData], [Queue_isQueueEmpty] and [Queue_FlushQueue] calls,
    has [0 <= Head < Elements] and [0 <= Tail < Elements], has
    [Head = Tail] whenever [Full] is set and whenever [Empty] is set, and
    never has [Full] and [Empty] set together. *)
Theorem Queue_reachable_invariant (buf : list byte) (C S : Z) (ops : list QueueOp)
    (q : QueueType) :
  1 <= C ->
  Queue_run (Queue_Init buf C S) ops = Ok q ->
  (0 <= Que.Head q < C) /\ (0 <= Que.Tail q < C)
  /\ (Que.Full q = TRUE -> Que.Head q = Que.Tail q)
  /\ (Que.Empty q = TRUE -> Que.Head q = Que.Tail q)
  /\ ~ (Que.Full q = TRUE /\ Que.Empty q = TRUE).
Proof.
  intros HC Hrun.
  destruct (Queue_run_inv C HC ops (Queue_Init buf C S) q eq_refl
              (Queue_Init_inv C HC buf S) Hrun) as [HE Hinv].
  unfold Queue_inv in Hinv. rewrite HE in Hinv. exact Hinv.
Qed.

(** ** queue.c: what one call does when its preconditions hold *)

Lemma memcpy_in_bounds (dst : list byte) (doff : Z) (src : list byte) (soff n : Z) :
  0 <= n -> 0 <= doff -> doff + n <= Z.of_nat (length dst) ->
  0 <= soff -> soff + n <= Z.of_nat (length src) ->
  memcpy dst doff src soff n =
    Ok (take (Z.to_nat doff) dst
        ++ take (Z.to_nat n) (drop (Z.to_nat soff) src)
        ++ drop (Z.to_nat (doff + n)) dst).
Proof.
  intros Hn Hd Hdn Hs Hsn. unfold memcpy.
  rewrite (proj2 (Z.leb_le 0 n) Hn), (proj2 (Z.leb_le 0 doff) Hd),
    (proj2 (Z.leb_le _ _) Hdn), (proj2 (Z.leb_le 0 soff) Hs),
    (proj2 (Z.leb_le _ _) Hsn).
  reflexivity.
Qed.

Lemma memcpy_length (dst : list byte) (doff : Z) (src : list byte) (soff n : Z)
    (out : list byte) :
  memcpy dst doff src soff n = Ok out -> length out = length dst.
Proof.
  unfold memcpy.
  destruct (Z.leb_spec 0 n); [| discriminate].
  destruct (Z.leb_spec 0 doff); [| discriminate].
  destruct (Z.leb_spec (doff + n) (Z.of_nat (length dst))); [| discriminate].
  destruct (Z.leb_spec 0 soff); [| discriminate].
  destruct (Z.leb_spec (soff + n) (Z.of_nat (length src))); [| discriminate].
  simpl. intros [= <-].
  rewrite !length_app, !length_take, !length_drop. lia.
Qed.

Lemma slot_offset_small (C S h : Z) :
  0 <= S -> C * S <= UINT32_MOD -> 0 <= h < C ->
  (h * S) mod UINT32_MOD = h * S /\ 0 <= h * S /\ h * S + S <= C * S.
Proof.
  intros HS HCS Hh.
  assert (0 <= h * S) by nia.
  assert (h * S + S <= C * S) by nia.
  split; [| split]; try assumption.
  destruct (Z.eq_dec S 0) as [->|HS0].
  - rewrite Z.mul_0_r. reflexivity.
  - apply Z.mod_small. lia.
Qed.

Lemma next_index_small (C h : Z) :
  C < UINT32_MOD -> 0 <= h < C -> (h + 1) mod UINT32_MOD = h + 1.
Proof. intros HC Hh. apply Z.mod_small. lia. Qed.

Lemma Queue_WriteData_not_full (q : QueueType) (Data : list byte) :
  Que.Full q = FALSE ->
  0 <= Que.Head q < Que.Elements q ->
  Queue_storage_ok (Que.Buffer q) (Que.Elements q) (Que.Size q) ->
  Que.Size q <= Z.of_nat (length Data) ->
  Queue_WriteData q Data =
    Ok (TRUE,
        let h := (Que.Head q + 1) mod Que.Elements q in
        Que.mk (take (Z.to_nat (Que.Head q * Que.Size q)) (Que.Buffer q)
                ++ take (Z.to_nat (Que.Size q)) Data
                ++ drop (Z.to_nat (Que.Head q * Que.Size q + Que.Size q)) (Que.Buffer q))
               (Que.Elements q) (Que.Size q) h (Que.Tail q) FALSE
               (if h =? Que.Tail q then TRUE else FALSE)).
Proof.
  intros HF HH (HS & HC & Hlen & H32) HD. unfold Queue_WriteData.
  rewrite HF, Z.eqb_refl.
  destruct (slot_offset_small _ _ _ (proj1 HS) H32 HH) as (-> & Hoff & Hend).
  rewrite memcpy_in_bounds by lia. simpl.
  rewrite (next_index_small (Que.Elements q)) by lia.
  rewrite umod_pos by lia. simpl.
  unfold Que.set_Full, Que.set_Head, Que.set_Empty, Que.set_Buffer; simpl.
  rewrite HF. destruct (_ =? _); reflexivity.
Qed.

Lemma Queue_WriteData_full (q : QueueType) (Data : list byte) :
  Que.Full q <> FALSE -> Queue_WriteData q Data = Ok (FALSE, q).
Proof.
  intros HF. unfold Queue_WriteData.
  destruct (Z.eqb_spec (Que.Full q) FALSE); [contradiction | reflexivity].
Qed.

Lemma Queue_ReadData_not_empty (q : QueueType) (Data : list byte) :
  Que.Empty q = FALSE ->
  0 <= Que.Tail q < Que.Elements q ->
  Queue_storage_ok (Que.Buffer q) (Que.Elements q) (Que.Size q) ->
  Que.Size q <= Z.of_nat (length Data) ->
  Queue_ReadData q Data =
    Ok (TRUE,
        take (Z.to_nat (Que.Size q))
             (drop (Z.to_nat (Que.Tail q * Que.Size q)) (Que.Buffer q))
        ++ drop (Z.to_nat (Que.Size q)) Data,
        let t := (Que.Tail q + 1) mod Que.Elements q in
        Que.mk (Que.Buffer q) (Que.Elements q) (Que.Size q) (Que.Head q) t
               (if t =? Que.Head q then TRUE else FALSE) FALSE).
Proof.
  intros HE HT (HS & HC & Hlen & H32) HD. unfold Queue_ReadData.
  rewrite HE, Z.eqb_refl.
  destruct (slot_offset_small _ _ _ (proj1 HS) H32 HT) as (-> & Hoff & Hend).
  rewrite memcpy_in_bounds by lia. simpl.
  rewrite (next_index_small (Que.Elements q)) by lia.
  rewrite umod_pos by lia. simpl.
  unfold Que.set_Full, Que.set_Tail, Que.set_Empty; simpl.
  rewrite HE. destruct (_ =? _); reflexivity.
Qed.

Lemma Queue_ReadData_empty (q : QueueType) (Data : list byte) :
  Que.Empty q <> FALSE -> Queue_ReadData q Data = Ok (FALSE, Data, q).
Proof.
  intros HE. unfold Queue_ReadData.
  destruct (Z.eqb_spec (Que.Empty q) FALSE); [contradiction | reflexivity].
Qed.

(** ** queue.c: no call faults on storage that is large enough *)

Lemma Queue_step_frame (q q' : QueueType) (op : QueueOp) :
  Queue_step q op = Ok q' ->
  Que.Elements q' = Que.Elements q /\ Que.Size q' = Que.Size q
  /\ length (Que.Buffer q') = length (Que.Buffer q).
Proof.
  destruct op as [Data|Data| |]; simpl; intros Hs.
  - inv_bind Hs. injection Hs as <-. unfold Queue_WriteData in Ha.
    destruct (Que.Full q =? FALSE).
    + inv_bind Ha. apply memcpy_length in Ha0. simpl in Ha. inv_bind Ha.
      simpl in Ha. destruct (_ =? _) in Ha; injection Ha as <-; simpl; auto.
    + injection Ha as <-. auto.
  - inv_bind Hs. injection Hs as <-. unfold Queue_ReadData in Ha.
    destruct (Que.Empty q =? FALSE).
    + inv_bind Ha. simpl in Ha. inv_bind Ha.
      simpl in Ha. destruct (_ =? _) in Ha; injection Ha as <-; simpl; auto.
    + injection Ha as <-. auto.
  - injection Hs as <-. auto.
  - injection Hs as <-. auto.
Qed.

Lemma Queue_step_no_fault (q : QueueType) (op : QueueOp) :
  Queue_storage_ok (Que.Buffer q) (Que.Elements q) (Que.Size q) ->
  Queue_inv q -> op_fits (Que.Size q) op ->
  exists q', Queue_step q op = Ok q'.
Proof.
  intros Hst (HH & HT & _) Hfit. destruct op as [Data|Data| |]; simpl in *.
  - destruct (Z.eq_dec (Que.Full q) FALSE) as [HF|HF].
    + rewrite Queue_WriteData_not_full by assumption. simpl. eauto.
    + rewrite Queue_WriteData_full by assumption. simpl. eauto.
  - destruct (Z.eq_dec (Que.Empty q) FALSE) as [HE|HE].
    + rewrite Queue_ReadData_not_empty by assumption. simpl. eauto.
    + rewrite Queue_ReadData_empty by assumption. simpl. eauto.
  - eauto.
  - eauto.
Qed.

Lemma Queue_run_no_fault (ops : list QueueOp) (q : QueueType) :
  Queue_storage_ok (Que.Buffer q) (Que.Elements q) (Que.Size q) ->
  Queue_inv q -> Forall (op_fits (Que.Size q)) ops ->
  exists q', Queue_run q ops = Ok q'.
Proof.
  revert q. induction ops as [|op ops IH]; intros q Hst Hinv Hfit; simpl.
  - eauto.
  - inversion Hfit as [|? ? Hop Hops]; subst.
    destruct (Queue_step_no_fault q op Hst Hinv Hop) as [q1 Hq1]. rewrite Hq1. simpl.
    destruct (Queue_step_frame _ _ _ Hq1) as (HE & HS & HL).
    destruct Hst as (? & HC & ? & ?).
    destruct (Queue_step_inv (Que.Elements q) ltac:(lia) q q1 op eq_refl Hinv Hq1)
      as [_ Hinv1].
    apply IH.
    + unfold Queue_storage_ok. rewrite HE, HS, HL. auto.
    + exact Hinv1.
    + rewrite HS. exact Hops.
Qed.

(** C9. With [Elements = 0] the queue that [Queue_Init] returns has [Full]
    clear, so the next [Queue_WriteData] enters the write branch and
    faults: on the remainder by zero when the copy itself stays inside the
    storage, and in any case on something.  With [Elements >= 1], storage
    of at least [Elements * Size] bytes and blocks of at least [Size]
    bytes, no sequence of calls faults. *)
Theorem Queue_capacity_precondition :
  (forall (buf : list byte) (S : Z),
      Que.Full (Queue_Init buf 0 S) = FALSE)
  /\ (forall (buf Data : list byte) (S : Z),
        ~ is_Ok (Queue_WriteData (Queue_Init buf 0 S) Data))
  /\ (forall (buf Data : list byte) (S : Z),
        0 <= S -> S <= Z.of_nat (length buf) -> S <= Z.of_nat (length Data) ->
        Queue_WriteData (Queue_Init buf 0 S) Data = Err DivisionByZero)
  /\ (forall (buf : list byte) (C S : Z) (ops : list QueueOp),
        Queue_storage_ok buf C S -> Forall (op_fits S) ops ->
        exists q, Queue_run (Queue_Init buf C S) ops = Ok q).
Proof.
  split; [reflexivity |]. split; [| split].
  - intros buf Data S. unfold Queue_WriteData. simpl.
    destruct (memcpy _ _ _ _ _); simpl; auto.
  - intros buf Data S HS Hb HD. unfold Queue_WriteData. simpl.
    rewrite memcpy_in_bounds by (rewrite ?Z.mod_0_l; simpl; lia || discriminate).
    reflexivity.
  - intros buf C S ops Hst Hfit.
    apply (Queue_run_no_fault ops (Queue_Init buf C S)); simpl; try assumption.
    apply Queue_Init_inv. destruct Hst as (_ & ? & _). lia.
Qed.

(** ** queue.c: filling the queue and draining it again *)

Section QueueFifo.
Variable buf0 : list byte.
Variables C S : Z.
Hypothesis storage : Queue_storage_ok buf0 C S.

Lemma chunks_length (pre : list (list byte)) :
  Forall (block_fits S) pre ->
  length (concat (map (take (Z.to_nat S)) pre)) = (length pre * Z.to_nat S)%nat.
Proof.
  induction 1 as [|e pre He _ IH]; simpl; [reflexivity |].
  rewrite length_app, IH, length_take. unfold block_fits in *. lia.
Qed.

Lemma written_image_length (pre : list (list byte)) :
  Forall (block_fits S) pre -> Z.of_nat (length pre) <= C ->
  length (written_image (Z.to_nat S) buf0 pre) = length buf0.
Proof.
  intros Hfit Hn. unfold written_image.
  rewrite length_app, chunks_length, length_drop by assumption.
  destruct storage as (HS & HC & Hlen & _). nia.
Qed.

Lemma written_image_snoc (pre : list (list byte)) (e : list byte) :
  Forall (block_fits S) pre -> (block_fits S) e -> Z.of_nat (length pre) < C ->
  take (length pre * Z.to_nat S) (written_image (Z.to_nat S) buf0 pre)
    ++ take (Z.to_nat S) e
    ++ drop (length pre * Z.to_nat S + Z.to_nat S) (written_image (Z.to_nat S) buf0 pre)
  = written_image (Z.to_nat S) buf0 (pre ++ [e]).
Proof.
  intros Hfit He Hn. unfold written_image.
  pose proof (chunks_length pre Hfit) as Hlen.
  rewrite take_app_length' by (symmetry; exact Hlen).
  rewrite drop_app_add' by (symmetry; exact Hlen).
  rewrite drop_drop, map_app, concat_app, length_app. simpl.
  rewrite app_nil_r, <- app_assoc. do 3 f_equal. lia.
Qed.
Lemma slot_offset_nat (n : nat) :
  Z.to_nat (Z.of_nat n * S) = (n * Z.to_nat S)%nat
  /\ Z.to_nat (Z.of_nat n * S + S) = (n * Z.to_nat S + Z.to_nat S)%nat.
Proof.
  destruct storage as (HS & _).
  rewrite Z2Nat.inj_add, Z2Nat.inj_mul, Nat2Z.id by nia. auto.
Qed.

Lemma Queue_after_writes_nil : Queue_after_writes buf0 C S [] = Queue_Init buf0 C S.
Proof.
  destruct storage as (_ & HC & _).
  unfold Queue_after_writes, Queue_Init, written_image.
  change (Z.of_nat (@length (list byte) [])) with 0.
  rewrite (proj2 (Z.eqb_neq 0 C)) by lia. reflexivity.
Qed.

Lemma Queue_WriteData_after_writes (pre : list (list byte)) (e : list byte) :
  Forall (block_fits S) pre -> (block_fits S) e -> Z.of_nat (length pre) < C ->
  Queue_WriteData (Queue_after_writes buf0 C S pre) e
  = Ok (TRUE, Queue_after_writes buf0 C S (pre ++ [e])).
Proof.
  intros Hfit He Hn.
  pose proof storage as (HS & HC & Hlen & H32).
  assert (Hneq : (Z.of_nat (length pre) =? C) = false) by (apply Z.eqb_neq; lia).
  rewrite Queue_WriteData_not_full.
  - unfold Queue_after_writes at 1 2 3 4 5 6 7 8 9. simpl. rewrite Hneq.
    destruct (slot_offset_nat (length pre)) as [-> ->].
    rewrite written_image_snoc by assumption.
    unfold Queue_after_writes. rewrite length_app. simpl length.
    replace (Z.of_nat (length pre + 1)) with (Z.of_nat (length pre) + 1) by lia.
    destruct (Z.eqb_spec (Z.of_nat (length pre) + 1) C) as [Heq|Hne].
    + rewrite Heq, Z.mod_same by lia. simpl.
      destruct (Z.eqb_spec C 0); [lia | reflexivity].
    + rewrite Z.mod_small by lia.
      destruct (Z.eqb_spec (Z.of_nat (length pre) + 1) 0); [lia | reflexivity].
  - simpl. rewrite Hneq. reflexivity.
  - simpl. rewrite Hneq. lia.
  - simpl. unfold Queue_storage_ok.
    rewrite written_image_length by (assumption || lia). auto.
  - exact He.
Qed.

Lemma Queue_write_all_after_writes (elems pre : list (list byte)) :
  Forall (block_fits S) pre -> Forall (block_fits S) elems ->
  Z.of_nat (length pre + length elems) <= C ->
  Queue_write_all (Queue_after_writes buf0 C S pre) elems
  = Ok (replicate (length elems) TRUE, Queue_after_writes buf0 C S (pre ++ elems)).
Proof.
  revert pre. induction elems as [|e elems IH]; intros pre Hpre Hel Hn; simpl.
  - rewrite app_nil_r. reflexivity.
  - inversion Hel as [|? ? He Hel']; subst.
    rewrite Queue_WriteData_after_writes by (assumption || (simpl in Hn; lia)). simpl.
    rewrite IH.
    + simpl. rewrite <- app_assoc. reflexivity.
    + apply Forall_app. split; [assumption | constructor; [assumption | constructor]].
    + assumption.
    + rewrite length_app. simpl in *. lia.
Qed.
Lemma chunk_at (elems : list (list byte)) (j : nat) (e rest : list byte) :
  Forall (block_fits S) elems -> elems !! j = Some e ->
  take (Z.to_nat S)
       (drop (j * Z.to_nat S) (concat (map (take (Z.to_nat S)) elems) ++ rest))
  = take (Z.to_nat S) e.
Proof.
  intros Hfit. revert j. induction Hfit as [|e0 es He0 _ IH]; intros j Hj.
  - discriminate.
  - assert (Hlen : length (take (Z.to_nat S) e0) = Z.to_nat S)
      by (rewrite length_take; unfold block_fits in *; lia).
    simpl concat. rewrite <- app_assoc. destruct j as [|j]; simpl in Hj.
    + injection Hj as ->. change (0 * Z.to_nat S)%nat with 0%nat.
      rewrite drop_0, take_app_length' by (symmetry; exact Hlen).
      reflexivity.
    + change (Datatypes.S j * Z.to_nat S)%nat with (Z.to_nat S + j * Z.to_nat S)%nat.
      rewrite drop_app_add' by (symmetry; exact Hlen). apply IH. exact Hj.
Qed.

Lemma Queue_after_writes_full (elems : list (list byte)) :
  Z.of_nat (length elems) = C ->
  Queue_after_writes buf0 C S elems = Queue_after_reads buf0 C S elems 0.
Proof.
  intros Hlen. destruct storage as (_ & HC & _).
  unfold Queue_after_writes, Queue_after_reads. rewrite Hlen, Z.eqb_refl.
  change (Z.of_nat 0) with 0.
  rewrite (proj2 (Z.eqb_neq 0 C)), (proj2 (Z.eqb_neq C 0)) by lia. reflexivity.
Qed.

Lemma Queue_ReadData_after_reads (elems : list (list byte)) (j : nat)
    (e d : list byte) :
  Forall (block_fits S) elems -> Z.of_nat (length elems) = C ->
  elems !! j = Some e -> (block_fits S) d ->
  Queue_ReadData (Queue_after_reads buf0 C S elems j) d
  = Ok (block_after_read (Z.to_nat S) e d, Queue_after_reads buf0 C S elems (j + 1)).
Proof.
  intros Hfit Hlen Hj Hd.
  pose proof storage as (HS & HC & Hbuf & H32).
  pose proof (lookup_lt_Some _ _ _ Hj) as Hlt.
  assert (Hneq : (Z.of_nat j =? C) = false) by (apply Z.eqb_neq; lia).
  rewrite Queue_ReadData_not_empty.
  - unfold Queue_after_reads at 1 2 3 4 5 6 7 8. simpl. rewrite Hneq.
    destruct (slot_offset_nat j) as [-> _].
    unfold written_image at 1. rewrite (chunk_at elems j e) by assumption.
    unfold block_after_read, Queue_after_reads.
    replace (Z.of_nat (j + 1)) with (Z.of_nat j + 1) by lia.
    destruct (Z.eqb_spec (Z.of_nat j + 1) C) as [Heq|Hne].
    + rewrite Heq, Z.mod_same by lia. simpl.
      destruct (Z.eqb_spec C 0); [lia | reflexivity].
    + rewrite Z.mod_small by lia.
      destruct (Z.eqb_spec (Z.of_nat j + 1) 0); [lia | reflexivity].
  - simpl. rewrite Hneq. reflexivity.
  - simpl. rewrite Hneq. lia.
  - simpl. unfold Queue_storage_ok.
    rewrite written_image_length by (assumption || lia). auto.
  - exact Hd.
Qed.

Lemma Queue_read_all_after_reads (elems dsts : list (list byte)) (j : nat) :
  Forall (block_fits S) elems -> Z.of_nat (length elems) = C ->
  Forall (block_fits S) dsts -> (j + length dsts <= length elems)%nat ->
  Queue_read_all (Queue_after_reads buf0 C S elems j) dsts
  = Ok (zip_with (block_after_read (Z.to_nat S)) (drop j elems) dsts,
        Queue_after_reads buf0 C S elems (j + length dsts)).
Proof.
  intros Hfit Hlen Hds. revert j. induction Hds as [|d dsts Hd _ IH]; intros j Hj; simpl.
  - rewrite Nat.add_0_r. destruct (drop j elems); reflexivity.
  - simpl in Hj.
    destruct (lookup_lt_is_Some_2 elems j ltac:(lia)) as [e He].
    rewrite (Queue_ReadData_after_reads elems j e d) by assumption. simpl.
    rewrite IH by lia. simpl.
    rewrite (drop_S _ _ _ He). simpl.
    replace (j + 1 + length dsts)%nat with (j + Datatypes.S (length dsts))%nat by lia.
    replace (j + 1)%nat with (Datatypes.S j) by lia. reflexivity.
Qed.
End QueueFifo.

(** C2. On storage for [C >= 1] elements of [S] bytes, starting from the
    initialised queue: [C] consecutive [Queue_WriteData] calls all return
    [TRUE]; one more call returns [FALSE] and returns the queue exactly as
    it was (buffer bytes, [Head], [Tail], [Empty], [Full]); [C] calls of
    [Queue_ReadData] then all return [TRUE] and the k-th one leaves in its
    block the [S] bytes of the k-th element written, after which the queue
    is empty. *)
Theorem Queue_fill_overflow_drain (buf : list byte) (C S : Z)
    (elems : list (list byte)) (extra : list byte) (dsts : list (list byte)) :
  Queue_storage_ok buf C S ->
  Z.of_nat (length elems) = C ->
  Forall (block_fits S) elems ->
  length dsts = length elems ->
  Forall (block_fits S) dsts ->
  exists q_full q_end,
    Queue_write_all (Queue_Init buf C S) elems
      = Ok (replicate (length elems) TRUE, q_full)
    /\ Queue_WriteData q_full extra = Ok (FALSE, q_full)
    /\ Queue_read_all q_full dsts
      = Ok (zip_with (block_after_read (Z.to_nat S)) elems dsts, q_end)
    /\ Que.Empty q_end = TRUE.
Proof.
  intros Hst Hlen Hel Hdl Hds.
  exists (Queue_after_writes buf C S elems),
         (Queue_after_reads buf C S elems (length elems)).
  split; [| split; [| split]].
  - rewrite <- (Queue_after_writes_nil buf C S Hst).
    rewrite (Queue_write_all_after_writes buf C S Hst elems []);
      [reflexivity | constructor | assumption | simpl; lia].
  - apply Queue_WriteData_full. simpl. rewrite Hlen, Z.eqb_refl. discriminate.
  - rewrite (Queue_after_writes_full buf C S Hst elems Hlen).
    rewrite (Queue_read_all_after_reads buf C S Hst elems dsts 0)
      by (assumption || (simpl; lia)).
    simpl. rewrite Hdl. reflexivity.
  - simpl. rewrite Hlen, Z.eqb_refl. reflexivity.
Qed.

(** ** Array accesses *)

Lemma array_get_Some {A : Type} (a : list A) (i : nat) (x : A) :
  a !! i = Some x -> array_get a (Z.of_nat i) = Ok x.
Proof.
  intros Hx. unfold array_get. pose proof (lookup_lt_Some _ _ _ Hx) as Hlt.
  rewrite (proj2 (Z.leb_le 0 (Z.of_nat i))) by lia.
  rewrite (proj2 (Z.ltb_lt (Z.of_nat i) _)) by lia.
  simpl. rewrite Nat2Z.id, Hx. reflexivity.
Qed.

Lemma array_get_Ok {A : Type} (a : list A) (i : Z) (x : A) :
  array_get a i = Ok x -> 0 <= i /\ a !! Z.to_nat i = Some x.
Proof.
  unfold array_get. destruct (Z.leb_spec 0 i); simpl; [| discriminate].
  destruct (i <? _); [| discriminate].
  destruct (a !! Z.to_nat i) eqn:E; [| discriminate]. intros [= <-]. auto.
Qed.

Lemma array_get_negative {A : Type} (a : list A) (i : Z) :
  i < 0 -> array_get a i = Err OutOfBounds.
Proof. intros Hi. unfold array_get. destruct (Z.leb_spec 0 i); [lia | reflexivity]. Qed.

Lemma array_set_Some {A : Type} (a : list A) (i : nat) (x y : A) :
  a !! i = Some x -> array_set a (Z.of_nat i) y = Ok (<[i := y]> a).
Proof.
  intros Hx. unfold array_set. pose proof (lookup_lt_Some _ _ _ Hx) as Hlt.
  rewrite (proj2 (Z.leb_le 0 (Z.of_nat i))) by lia.
  rewrite (proj2 (Z.ltb_lt (Z.of_nat i) _)) by lia.
  simpl. rewrite Nat2Z.id. reflexivity.
Qed.

Lemma array_set_Ok {A : Type} (a a' : list A) (i : Z) (y : A) :
  array_set a i y = Ok a' -> 0 <= i /\ a' = <[Z.to_nat i := y]> a.
Proof.
  unfold array_set. destruct (Z.leb_spec 0 i); simpl; [| discriminate].
  destruct (i <? _); [| discriminate]. intros [= <-]. auto.
Qed.

Lemma BtnBuffer_store_Some (kb : KeyboardType) (i : nat) (b : ButtonType)
    (f : ButtonType -> ButtonType) :
  Kbd.BtnBuffer kb !! i = Some b ->
  BtnBuffer_store kb (Z.of_nat i) f
  = Ok (Kbd.set_BtnBuffer (<[i := f b]> (Kbd.BtnBuffer kb)) kb).
Proof.
  intros Hb. unfold BtnBuffer_store.
  rewrite (array_get_Some _ _ _ Hb). simpl.
  rewrite (array_set_Some _ _ _ _ Hb). reflexivity.
Qed.

Lemma BtnBuffer_store_Ok (kb kb' : KeyboardType) (i : Z)
    (f : ButtonType -> ButtonType) :
  BtnBuffer_store kb i f = Ok kb' ->
  exists b, 0 <= i /\ Kbd.BtnBuffer kb !! Z.to_nat i = Some b
            /\ kb' = Kbd.set_BtnBuffer (<[Z.to_nat i := f b]> (Kbd.BtnBuffer kb)) kb.
Proof.
  unfold BtnBuffer_store. intros H.
  inv_bind_as H b Hget. inv_bind_as H buf Hset. injection H as <-.
  apply array_get_Ok in Hget as [Hi Hb]. apply array_set_Ok in Hset as [_ ->].
  eauto.
Qed.

(** ** buttons.c: [Buttons_Register] *)

Lemma Buttons_Register_room (kb : KeyboardType) (Pin Port ActiveLevel : Z)
    (b : ButtonType) :
  Kbd.Counter kb < Kbd.Buttons kb -> Kbd.Buttons kb < UINT8_MOD ->
  0 <= Kbd.Counter kb ->
  Kbd.BtnBuffer kb !! Z.to_nat (Kbd.Counter kb) = Some b ->
  Buttons_Register kb Pin Port ActiveLevel
  = Ok (Kbd.Counter kb + 1,
        Kbd.mk (Kbd.Buttons kb) (Kbd.Sample kb) (Kbd.Counter kb + 1)
               (<[Z.to_nat (Kbd.Counter kb) :=
                    Btn.mk Pin Port (Btn.Counter b) BTN_IDLE BTN_INACTIVE
                           ActiveLevel ST_IDLE]> (Kbd.BtnBuffer kb))).
Proof.
  intros Hroom Hcap Hc Hb. unfold Buttons_Register.
  rewrite (proj2 (Z.ltb_lt _ _) Hroom).
  destruct kb as [B Smp c buf]. simpl in *.
  pose proof (lookup_lt_Some _ _ _ Hb) as Hlt.
  remember (Z.to_nat c) as n eqn:Hn.
  assert (Hcn : c = Z.of_nat n) by lia. rewrite Hcn. clear Hn.
  rewrite (BtnBuffer_store_Some _ _ b) by exact Hb. simpl.
  repeat (erewrite BtnBuffer_store_Some
            by (simpl; apply list_lookup_insert_eq; rewrite ?length_insert; exact Hlt);
          simpl).
  rewrite !list_insert_insert_eq.
  rewrite Z.mod_small by (unfold UINT8_MOD in *; lia).
  reflexivity.
Qed.

Lemma Buttons_Register_exhausted (kb : KeyboardType) (Pin Port ActiveLevel : Z) :
  Kbd.Buttons kb <= Kbd.Counter kb ->
  Buttons_Register kb Pin Port ActiveLevel = Ok (0, kb).
Proof.
  intros Hfull. unfold Buttons_Register.
  destruct (Z.ltb_spec (Kbd.Counter kb) (Kbd.Buttons kb)); [lia | reflexivity].
Qed.

(** C8. With a registered count below the declared capacity,
    [Buttons_Register] writes the next slot of the storage (pin, port and
    active level as given, status inactive, event none, phase idle, every
    other slot as it was), increments the count and returns the new count,
    the 1-based index of the button.  With the count equal to the
    capacity it returns 0 and the keyboard exactly as it was.  Either way
    the count does not exceed the capacity afterwards. *)
Theorem Buttons_Register_capacity (kb : KeyboardType) (Pin Port ActiveLevel : Z) :
  0 <= Kbd.Counter kb <= Kbd.Buttons kb ->
  Kbd.Buttons kb < UINT8_MOD ->
  Kbd.Buttons kb <= Z.of_nat (length (Kbd.BtnBuffer kb)) ->
  exists r kb',
    Buttons_Register kb Pin Port ActiveLevel = Ok (r, kb')
    /\ Kbd.Counter kb' <= Kbd.Buttons kb'
    /\ (Kbd.Counter kb < Kbd.Buttons kb ->
        r = Kbd.Counter kb + 1
        /\ Kbd.Counter kb' = Kbd.Counter kb + 1
        /\ Kbd.Buttons kb' = Kbd.Buttons kb
        /\ Kbd.Sample kb' = Kbd.Sample kb
        /\ length (Kbd.BtnBuffer kb') = length (Kbd.BtnBuffer kb)
        /\ (exists b,
              Kbd.BtnBuffer kb' !! Z.to_nat (Kbd.Counter kb) = Some b
              /\ config b = (Pin, Port, ActiveLevel)
              /\ Btn.Status b = BTN_INACTIVE
              /\ Btn.Event b = BTN_IDLE
              /\ Btn.smState b = ST_IDLE)
        /\ (forall j : nat,
              j <> Z.to_nat (Kbd.Counter kb) ->
              Kbd.BtnBuffer kb' !! j = Kbd.BtnBuffer kb !! j))
    /\ (Kbd.Counter kb = Kbd.Buttons kb -> r = 0 /\ kb' = kb).
Proof.
  intros Hc Hcap Hlen.
  destruct (Z.lt_ge_cases (Kbd.Counter kb) (Kbd.Buttons kb)) as [Hroom|Hfull].
  - destruct (lookup_lt_is_Some_2 (Kbd.BtnBuffer kb) (Z.to_nat (Kbd.Counter kb))
                ltac:(lia)) as [b Hb].
    eexists _, _. split.
    { apply (Buttons_Register_room kb Pin Port ActiveLevel b); (assumption || lia). }
    simpl. split; [lia |]. split; [| lia].
    intros _. repeat split.
    + apply length_insert.
    + eexists. split.
      { apply list_lookup_insert_eq. eapply lookup_lt_Some. exact Hb. }
      repeat split.
    + intros j Hj. apply list_lookup_insert_ne. congruence.
  - exists 0, kb. split.
    { apply Buttons_Register_exhausted. lia. }
    split; [lia |]. split; [lia | auto].
Qed.

(** ** buttons.c: [Buttons_GetStatus] *)

Lemma Buttons_GetStatus_below_count (kb : KeyboardType) (i : nat) (b : ButtonType) :
  Z.of_nat i + 1 < Kbd.Counter kb ->
  Kbd.BtnBuffer kb !! i = Some b ->
  Buttons_GetStatus kb (Z.of_nat i + 1) = Ok (Btn.Status b, kb).
Proof.
  intros Hi Hb. unfold Buttons_GetStatus.
  rewrite (proj2 (Z.ltb_lt _ _) Hi).
  replace (Z.of_nat i + 1 - 1) with (Z.of_nat i) by lia.
  rewrite (array_get_Some _ _ _ Hb). reflexivity.
Qed.

Lemma Buttons_GetStatus_from_count (kb : KeyboardType) (Button : Z) :
  Kbd.Counter kb <= Button ->
  Buttons_GetStatus kb Button = Ok (BTN_INACTIVE, kb).
Proof.
  intros Hi. unfold Buttons_GetStatus.
  destruct (Z.ltb_spec Button (Kbd.Counter kb)); [lia | reflexivity].
Qed.

Lemma Buttons_GetStatus_zero (kb : KeyboardType) :
  0 < Kbd.Counter kb -> Buttons_GetStatus kb 0 = Err OutOfBounds.
Proof.
  intros Hc. unfold Buttons_GetStatus.
  rewrite (proj2 (Z.ltb_lt _ _) Hc).
  rewrite array_get_negative by lia. reflexivity.
Qed.

Lemma Buttons_GetStatus_frame (kb kb' : KeyboardType) (Button r : Z) :
  Buttons_GetStatus kb Button = Ok (r, kb') -> kb' = kb.
Proof.
  unfold Buttons_GetStatus. destruct (Button <? Kbd.Counter kb).
  - intros H. inv_bind_as H b Hb. injection H as _ <-. reflexivity.
  - intros [= _ <-]. reflexivity.
Qed.

(** C4. [Buttons_GetStatus] compares the index with [<] where
    [Buttons_GetEvent] uses [<=]: asked for the button registered last
    (index equal to the registered count) it returns inactive whatever the
    status of that button is.  On the keyboard with one button, threshold
    1, after two ticks at the active level the button is active and
    [Buttons_GetStatus] of index 1 returns inactive.  Index 0 on a
    keyboard with a registered button reads the slot before the array. *)
Theorem Buttons_GetStatus_last_and_zero_index :
  (forall kb : KeyboardType,
      Buttons_GetStatus kb (Kbd.Counter kb) = Ok (BTN_INACTIVE, kb))
  /\ (exists kb : KeyboardType,
        pressed_keyboard = Ok kb
        /\ Kbd.Counter kb = 1
        /\ observe 0 kb = Some (ST_HOLD, 1, BTN_PRESSED, BTN_ACTIVE)
        /\ Buttons_GetStatus kb 1 = Ok (BTN_INACTIVE, kb))
  /\ (forall kb : KeyboardType,
        0 < Kbd.Counter kb -> Buttons_GetStatus kb 0 = Err OutOfBounds).
Proof.
  split; [| split].
  - intros kb. apply Buttons_GetStatus_from_count. lia.
  - eexists. split; [vm_compute; reflexivity |]. repeat split.
  - apply Buttons_GetStatus_zero.
Qed.

(** ** buttons.c: [Buttons_GetEvent] *)

Lemma Buttons_GetEvent_registered (kb : KeyboardType) (i : nat) (b : ButtonType) :
  Z.of_nat i + 1 <= Kbd.Counter kb ->
  Kbd.BtnBuffer kb !! i = Some b ->
  Buttons_GetEvent kb (Z.of_nat i + 1)
  = Ok (Btn.Event b,
        Kbd.set_BtnBuffer (<[i := Btn.set_Event BTN_IDLE b]> (Kbd.BtnBuffer kb)) kb).
Proof.
  intros Hi Hb. unfold Buttons_GetEvent.
  rewrite (proj2 (Z.leb_le _ _) Hi).
  replace (Z.of_nat i + 1 - 1) with (Z.of_nat i) by lia.
  rewrite (array_get_Some _ _ _ Hb). simpl.
  rewrite (BtnBuffer_store_Some _ _ _ _ Hb). reflexivity.
Qed.

Lemma Buttons_GetEvent_beyond_count (kb : KeyboardType) (Button : Z) :
  Kbd.Counter kb < Button ->
  Buttons_GetEvent kb Button = Ok (BTN_IDLE, kb).
Proof.
  intros Hi. unfold Buttons_GetEvent.
  destruct (Z.leb_spec Button (Kbd.Counter kb)); [lia | reflexivity].
Qed.

(** C5. [Buttons_GetEvent] checks the index against the registered count
    only: index 0 passes the check on every keyboard and the call reads
    and clears the [Event] field of the slot before the array. *)
Theorem Buttons_GetEvent_index_zero (kb : KeyboardType) :
  0 <= Kbd.Counter kb -> Buttons_GetEvent kb 0 = Err OutOfBounds.
Proof.
  intros Hc. unfold Buttons_GetEvent.
  rewrite (proj2 (Z.leb_le _ _) Hc).
  rewrite array_get_negative by lia. reflexivity.
Qed.

(** ** buttons.c: [Sample_Button] *)

Lemma shl_one_defined (n : Z) : 0 <= n < 31 -> shl_one n = Ok (Z.shiftl 1 n).
Proof.
  intros Hn. unfold shl_one.
  rewrite (proj2 (Z.leb_le 0 n)), (proj2 (Z.ltb_lt n 31)) by lia. reflexivity.
Qed.

Lemma read_button_wired (R : PinReader) (b : ButtonType) :
  wired b ->
  exists port, Ports !! Z.to_nat (Btn.Port b) = Some port
               /\ read_button R b = Ok (R port (Z.shiftl 1 (Btn.Pin b))).
Proof.
  intros [Hp Hpin]. unfold read_button.
  destruct (lookup_lt_is_Some_2 Ports (Z.to_nat (Btn.Port b)) ltac:(lia)) as [port Hport].
  exists port. split; [exact Hport |].
  rewrite <- (Z2Nat.id (Btn.Port b)) at 1 by lia.
  rewrite (array_get_Some _ _ _ Hport). cbn [mbind result_bind].
  rewrite shl_one_defined by exact Hpin. reflexivity.
Qed.

Lemma read_button_all_pins (b : ButtonType) (level : Z) :
  wired b ->
  read_button (all_pins level) b = Ok level.
Proof.
  intros Hw. destruct (read_button_wired (all_pins level) b Hw) as (port & _ & ->).
  reflexivity.
Qed.

(** Outside of pins 0 to 30 the mask is not defined and the read faults. *)
Lemma read_button_undefined_shift (R : PinReader) (b : ButtonType) :
  0 <= Btn.Port b < Z.of_nat (length Ports) ->
  ~ (0 <= Btn.Pin b < 31) ->
  read_button R b = Err UndefinedShift.
Proof.
  intros Hp Hpin. unfold read_button.
  destruct (lookup_lt_is_Some_2 Ports (Z.to_nat (Btn.Port b)) ltac:(lia)) as [port Hport].
  rewrite <- (Z2Nat.id (Btn.Port b)) by lia.
  rewrite (array_get_Some _ _ _ Hport). cbn [mbind result_bind].
  unfold shl_one.
  destruct (Z.leb_spec 0 (Btn.Pin b)); [| reflexivity].
  destruct (Z.ltb_spec (Btn.Pin b) 31); [lia | reflexivity].
Qed.

Lemma Sample_Button_idle (R : PinReader) (b : ButtonType) (N level : Z) :
  Btn.smState b = ST_IDLE -> read_button R b = Ok level ->
  Sample_Button R b N
  = Ok (if level =? Btn.ActiveLevel b
        then Btn.set_Counter 0 (Btn.set_smState ST_PRESS b) else b).
Proof.
  intros Hst Hread. unfold Sample_Button. rewrite Hst, Hread. simpl.
  destruct (level =? Btn.ActiveLevel b); reflexivity.
Qed.

Lemma Sample_Button_press (R : PinReader) (b : ButtonType) (N level : Z) :
  Btn.smState b = ST_PRESS -> read_button R b = Ok level ->
  Sample_Button R b N
  = Ok (let c := (Btn.Counter b + 1) mod UINT8_MOD in
        if N <=? c
        then Btn.mk (Btn.Pin b) (Btn.Port b) c BTN_PRESSED BTN_ACTIVE
                    (Btn.ActiveLevel b) ST_HOLD
        else Btn.mk (Btn.Pin b) (Btn.Port b) c (Btn.Event b) (Btn.Status b)
                    (Btn.ActiveLevel b)
                    (if level =? Btn.ActiveLevel b then ST_PRESS else ST_IDLE)).
Proof.
  intros Hst Hread. unfold Sample_Button. rewrite Hst.
  destruct b as [pin port c ev st al sm]. simpl in *. subst sm.
  change (read_button R (Btn.set_Counter ((c + 1) mod UINT8_MOD)
                           (Btn.mk pin port c ev st al ST_PRESS)))
    with (read_button R (Btn.mk pin port c ev st al ST_PRESS)).
  rewrite Hread. simpl.
  destruct (level =? al); simpl; destruct (N <=? (c + 1) mod UINT8_MOD); reflexivity.
Qed.

Lemma Sample_Button_hold (R : PinReader) (b : ButtonType) (N level : Z) :
  Btn.smState b = ST_HOLD -> read_button R b = Ok level ->
  Sample_Button R b N
  = Ok (if level =? Btn.ActiveLevel b
        then b else Btn.set_Counter 0 (Btn.set_smState ST_RELEASE b)).
Proof.
  intros Hst Hread. unfold Sample_Button. rewrite Hst, Hread. simpl.
  destruct (level =? Btn.ActiveLevel b); reflexivity.
Qed.

Lemma Sample_Button_release (R : PinReader) (b : ButtonType) (N level : Z) :
  Btn.smState b = ST_RELEASE -> read_button R b = Ok level ->
  Sample_Button R b N
  = Ok (let c := (Btn.Counter b + 1) mod UINT8_MOD in
        if N <=? c
        then Btn.mk (Btn.Pin b) (Btn.Port b) c BTN_RELEASED BTN_INACTIVE
                    (Btn.ActiveLevel b) ST_IDLE
        else Btn.mk (Btn.Pin b) (Btn.Port b) c (Btn.Event b) (Btn.Status b)
                    (Btn.ActiveLevel b)
                    (if level =? Btn.ActiveLevel b then ST_HOLD else ST_RELEASE)).
Proof.
  intros Hst Hread. unfold Sample_Button. rewrite Hst.
  destruct b as [pin port c ev st al sm]. simpl in *. subst sm.
  change (read_button R (Btn.set_Counter ((c + 1) mod UINT8_MOD)
                           (Btn.mk pin port c ev st al ST_RELEASE)))
    with (read_button R (Btn.mk pin port c ev st al ST_RELEASE)).
  rewrite Hread. simpl.
  destruct (level =? al); simpl; destruct (N <=? (c + 1) mod UINT8_MOD); reflexivity.
Qed.

Lemma Sample_Button_Ok_read (R : PinReader) (b b' : ButtonType) (N : Z) :
  Sample_Button R b N = Ok b' -> exists level, read_button R b = Ok level.
Proof.
  unfold Sample_Button. intros H.
  destruct (Btn.smState b); inv_bind_as H level Hread; eauto.
Qed.

Lemma Sample_Button_config (R : PinReader) (b b' : ButtonType) (N : Z) :
  Sample_Button R b N = Ok b' -> config b' = config b.
Proof.
  intros H. destruct (Sample_Button_Ok_read _ _ _ _ H) as [level Hread].
  destruct (Btn.smState b) eqn:Hst.
  - rewrite (Sample_Button_idle R b N level Hst Hread) in H.
    destruct (level =? _); injection H as <-; reflexivity.
  - rewrite (Sample_Button_press R b N level Hst Hread) in H. simpl in H.
    destruct (N <=? _); injection H as <-; reflexivity.
  - rewrite (Sample_Button_hold R b N level Hst Hread) in H.
    destruct (level =? _); injection H as <-; reflexivity.
  - rewrite (Sample_Button_release R b N level Hst Hread) in H. simpl in H.
    destruct (N <=? _); injection H as <-; reflexivity.
Qed.

(** ** buttons.c: the confirmation window *)

Section Confirmation.
Variable N : Z.
Hypothesis N_range : 1 <= N < UINT8_MOD.

(** In [ST_PRESS], samples at the active level below the threshold only
    advance the counter. *)
Lemma Sample_run_press_progress (k : nat) (A : Z) (b : ButtonType) :
  Btn.smState b = ST_PRESS -> Btn.ActiveLevel b = A ->
  wired b ->
  0 <= Btn.Counter b -> Btn.Counter b + Z.of_nat k < N ->
  Sample_run (replicate k A) b N
  = Ok (Btn.set_Counter (Btn.Counter b + Z.of_nat k) b).
Proof.
  revert b. induction k as [|k IH]; intros b Hst HA Hport Hc Hk; simpl.
  - destruct b; simpl in *. rewrite Z.add_0_r. reflexivity.
  - rewrite (Sample_Button_press _ b N _ Hst (read_button_all_pins b _ Hport)).
    cbv zeta. unfold UINT8_MOD in *.
    rewrite (Z.mod_small (Btn.Counter b + 1)) by lia.
    destruct (Z.leb_spec N (Btn.Counter b + 1)); [lia |].
    rewrite HA, Z.eqb_refl. simpl.
    rewrite IH by (simpl; (reflexivity || assumption || lia)).
    destruct b; simpl in *. subst. unfold Btn.set_Counter. simpl.
    do 2 f_equal. lia.
Qed.

(** From [ST_IDLE], [k + 1] samples at the active level with [k] below the
    threshold lead to [ST_PRESS] with the counter at [k]. *)
Lemma Sample_run_idle_to_press (k : nat) (b : ButtonType) :
  Btn.smState b = ST_IDLE ->
  wired b ->
  Z.of_nat k < N ->
  Sample_run (replicate (Datatypes.S k) (Btn.ActiveLevel b)) b N
  = Ok (Btn.set_Counter (Z.of_nat k) (Btn.set_smState ST_PRESS b)).
Proof.
  intros Hst Hport Hk. simpl.
  rewrite (Sample_Button_idle _ b N _ Hst (read_button_all_pins b _ Hport)).
  rewrite Z.eqb_refl. simpl.
  rewrite Sample_run_press_progress by (simpl; (reflexivity || assumption || lia)).
  reflexivity.
Qed.

(** A contradicting sample in [ST_PRESS] before the threshold tick sends
    the button back to [ST_IDLE]; event and status stay as they were. *)
Lemma Sample_Button_press_glitch_early (R : PinReader) (b : ButtonType) (level : Z) :
  Btn.smState b = ST_PRESS -> read_button R b = Ok level ->
  level <> Btn.ActiveLevel b ->
  0 <= Btn.Counter b -> Btn.Counter b + 1 < N ->
  exists b', Sample_Button R b N = Ok b'
             /\ Btn.smState b' = ST_IDLE
             /\ Btn.Event b' = Btn.Event b
             /\ Btn.Status b' = Btn.Status b.
Proof.
  intros Hst Hread Hne Hc Hlt.
  rewrite (Sample_Button_press R b N level Hst Hread). cbv zeta.
  unfold UINT8_MOD in *. rewrite Z.mod_small by lia.
  destruct (Z.leb_spec N (Btn.Counter b + 1)); [lia |].
  destruct (Z.eqb_spec level (Btn.ActiveLevel b)); [contradiction |].
  eexists. split; [reflexivity |]. simpl. auto.
Qed.

(** On the threshold tick the sample does not matter. *)
Lemma Sample_Button_press_threshold (R : PinReader) (b : ButtonType) (level : Z) :
  Btn.smState b = ST_PRESS -> read_button R b = Ok level ->
  Btn.Counter b + 1 = N ->
  exists b', Sample_Button R b N = Ok b'
             /\ Btn.smState b' = ST_HOLD
             /\ Btn.Event b' = BTN_PRESSED
             /\ Btn.Status b' = BTN_ACTIVE.
Proof.
  intros Hst Hread Hc.
  rewrite (Sample_Button_press R b N level Hst Hread). cbv zeta.
  unfold UINT8_MOD in *. rewrite Z.mod_small by lia.
  destruct (Z.leb_spec N (Btn.Counter b + 1)); [| lia].
  eexists. split; [reflexivity |]. simpl. auto.
Qed.
End Confirmation.

(** C1. The part of the claim the code breaks: a button in [ST_IDLE] with
    no event and inactive status (wired to a port of [Ports] and a pin
    from 0 to 30, where the read is defined), fed as many samples at the active level
    as the threshold says, is in [ST_PRESS] (still no event, still
    inactive); a sample that contradicts the active level on the next
    tick, which is taken in [ST_PRESS], yields the pressed event and the
    active status. *)
Theorem Sample_Button_confirms_on_contradicting_sample (N : Z) (b : ButtonType)
    (level : Z) :
  1 <= N < UINT8_MOD ->
  Btn.smState b = ST_IDLE ->
  Btn.Status b = BTN_INACTIVE -> Btn.Event b = BTN_IDLE ->
  0 <= Btn.Port b < Z.of_nat (length Ports) ->
  0 <= Btn.Pin b < 31 ->
  level <> Btn.ActiveLevel b ->
  exists b1 b2 : ButtonType,
    Sample_run (replicate (Z.to_nat N) (Btn.ActiveLevel b)) b N = Ok b1
    /\ Btn.smState b1 = ST_PRESS
    /\ Btn.Status b1 = BTN_INACTIVE /\ Btn.Event b1 = BTN_IDLE
    /\ Sample_Button (all_pins level) b1 N = Ok b2
    /\ Btn.smState b2 = ST_HOLD
    /\ Btn.Event b2 = BTN_PRESSED /\ Btn.Status b2 = BTN_ACTIVE.
Proof.
  intros HN Hst Hstatus Hevent Hp Hpin Hne.
  assert (Hport : wired b) by (split; assumption).
  replace (Z.to_nat N) with (Datatypes.S (Z.to_nat (N - 1))) by lia.
  rewrite (Sample_run_idle_to_press N HN) by (assumption || lia).
  set (b1 := Btn.set_Counter _ _).
  destruct (Sample_Button_press_threshold N HN (all_pins level) b1 level)
    as (b2 & Hb2 & Hs2 & He2 & Ha2).
  - reflexivity.
  - apply read_button_all_pins. exact Hport.
  - subst b1. simpl. lia.
  - exists b1, b2. subst b1. simpl. auto 10.
Qed.

(** ** buttons.c: the status turns active only after a full window *)

Lemma read_button_all_pins_Ok (b : ButtonType) (l level : Z) :
  read_button (all_pins l) b = Ok level -> level = l.
Proof.
  unfold read_button. intros H. inv_bind_as H port Hport.
  inv_bind_as H mask Hmask. injection H as <-. reflexivity.
Qed.

Section Window.
Variables N A : Z.
Hypothesis N_range : 1 <= N < UINT8_MOD.

Lemma debounce_inv_step (hist : list Z) (b b' : ButtonType) (l : Z) :
  debounce_inv N A hist b ->
  Sample_Button (all_pins l) b N = Ok b' ->
  debounce_inv N A (hist ++ [l]) b'.
Proof.
  intros [HA Hinv] Hstep.
  destruct (Sample_Button_Ok_read _ _ _ _ Hstep) as [level Hread].
  pose proof (read_button_all_pins_Ok _ _ _ Hread) as ->.
  unfold debounce_inv. destruct (Btn.smState b) eqn:Hst.
  - rewrite (Sample_Button_idle _ b N l Hst Hread) in Hstep.
    destruct (Z.eqb_spec l (Btn.ActiveLevel b)) as [Heq|Hne];
      injection Hstep as <-; simpl.
    + split; [assumption |]. split; [assumption |]. split; [lia |].
      exists hist. simpl. congruence.
    + rewrite Hst. auto.
  - destruct Hinv as (Hstatus & Hc & older & Hhist).
    rewrite (Sample_Button_press _ b N l Hst Hread) in Hstep. cbv zeta in Hstep.
    unfold UINT8_MOD in *. rewrite Z.mod_small in Hstep by lia.
    destruct (Z.leb_spec N (Btn.Counter b + 1)).
    + injection Hstep as <-. simpl. auto.
    + destruct (Z.eqb_spec l (Btn.ActiveLevel b)) as [Heq|Hne];
        injection Hstep as <-; simpl; (split; [assumption |]); [| assumption].
      split; [assumption |]. split; [lia |].
      exists older. rewrite Hhist, <- app_assoc. f_equal.
      replace (Z.to_nat (Btn.Counter b + 1 + 1))
        with (Datatypes.S (Z.to_nat (Btn.Counter b + 1))) by lia.
      rewrite replicate_S_end. congruence.
  - rewrite (Sample_Button_hold _ b N l Hst Hread) in Hstep.
    destruct (l =? Btn.ActiveLevel b); injection Hstep as <-; simpl.
    + rewrite Hst. auto.
    + auto.
  - rewrite (Sample_Button_release _ b N l Hst Hread) in Hstep. cbv zeta in Hstep.
    destruct (N <=? _).
    + injection Hstep as <-. simpl. auto.
    + destruct (l =? Btn.ActiveLevel b); injection Hstep as <-; simpl; auto.
Qed.

Lemma debounce_inv_run (levels hist : list Z) (b b' : ButtonType) :
  debounce_inv N A hist b ->
  Sample_run levels b N = Ok b' ->
  debounce_inv N A (hist ++ levels) b'.
Proof.
  revert hist b. induction levels as [|l levels IH]; intros hist b Hinv Hrun;
    simpl in Hrun.
  - injection Hrun as <-. rewrite app_nil_r. exact Hinv.
  - inv_bind_as Hrun b1 Hstep.
    replace (hist ++ l :: levels) with ((hist ++ [l]) ++ levels)
      by (rewrite <- app_assoc; reflexivity).
    eapply IH; [| exact Hrun]. eapply debounce_inv_step; eassumption.
Qed.

(** The first half of the property of the confirmation window: when a
    tick turns the status from inactive to active, the [N] samples before
    that tick were all at the active level. *)
Lemma status_active_only_after_window (levels : list Z) (b0 b b' : ButtonType)
    (l : Z) :
  Btn.smState b0 = ST_IDLE -> Btn.Status b0 = BTN_INACTIVE ->
  Btn.ActiveLevel b0 = A ->
  Sample_run levels b0 N = Ok b ->
  Btn.Status b = BTN_INACTIVE ->
  Sample_Button (all_pins l) b N = Ok b' ->
  Btn.Status b' = BTN_ACTIVE ->
  exists older, levels = older ++ replicate (Z.to_nat N) A.
Proof.
  intros Hst0 Hstatus0 HA0 Hrun Hstatus Hstep Hactive.
  assert (Hinv0 : debounce_inv N A [] b0)
    by (unfold debounce_inv; rewrite Hst0; auto).
  pose proof (debounce_inv_run levels [] b0 b Hinv0 Hrun) as [HA Hinv].
  simpl in Hinv.
  destruct (Sample_Button_Ok_read _ _ _ _ Hstep) as [level Hread].
  destruct (Btn.smState b) eqn:Hst.
  - rewrite (Sample_Button_idle _ b N _ Hst Hread) in Hstep.
    destruct (level =? _); injection Hstep as <-; simpl in Hactive;
      unfold BTN_ACTIVE, BTN_INACTIVE in *; lia.
  - destruct Hinv as (_ & Hc & older & Hhist).
    rewrite (Sample_Button_press _ b N _ Hst Hread) in Hstep. cbv zeta in Hstep.
    unfold UINT8_MOD in *. rewrite Z.mod_small in Hstep by lia.
    destruct (Z.leb_spec N (Btn.Counter b + 1)).
    + exists older. rewrite Hhist. do 2 f_equal. lia.
    + injection Hstep as <-; simpl in Hactive;
        unfold BTN_ACTIVE, BTN_INACTIVE in *; lia.
  - unfold BTN_ACTIVE, BTN_INACTIVE in *; lia.
  - unfold BTN_ACTIVE, BTN_INACTIVE in *; lia.
Qed.
End Window.

(** ** buttons.c: the threshold-3 scenario *)

(** C6 as stated fails: after the sixth sample of [active, active,
    inactive, active, active, active] the button has neither the pressed
    event nor the active status. *)
Lemma scenario_sample_6_not_confirmed :
  ~ (exists tr st c,
        scenario_trace 3 [1; 1; 0; 1; 1; 1] = Ok tr
        /\ tr !! 5%nat = Some (Some (st, c, BTN_PRESSED, BTN_ACTIVE))).
Proof.
  intros (tr & st & c & Htr & Hlast).
  vm_compute in Htr. injection Htr as <-. simpl in Hlast. discriminate.
Qed.

(** C6, amended. A button with threshold 3, in [ST_IDLE], fed [active,
    active, inactive, active, active, active] over six ticks of
    [Buttons_MainFunction]: it goes back from [ST_PRESS] to [ST_IDLE]
    exactly once, at sample 3; after sample 6 it is in [ST_PRESS] with the
    counter at 2, no event and inactive status; a seventh tick at the
    active level gives the pressed event and the active status, and no
    tick before does. *)
Theorem scenario_confirms_at_seventh_tick :
  scenario_trace 3 [1; 1; 0; 1; 1; 1]
  = Ok [ Some (ST_PRESS, 0, BTN_IDLE, BTN_INACTIVE);
         Some (ST_PRESS, 1, BTN_IDLE, BTN_INACTIVE);
         Some (ST_IDLE, 2, BTN_IDLE, BTN_INACTIVE);
         Some (ST_PRESS, 0, BTN_IDLE, BTN_INACTIVE);
         Some (ST_PRESS, 1, BTN_IDLE, BTN_INACTIVE);
         Some (ST_PRESS, 2, BTN_IDLE, BTN_INACTIVE) ]
  /\ scenario_trace 3 [1; 1; 0; 1; 1; 1; 1]
    = Ok [ Some (ST_PRESS, 0, BTN_IDLE, BTN_INACTIVE);
           Some (ST_PRESS, 1, BTN_IDLE, BTN_INACTIVE);
           Some (ST_IDLE, 2, BTN_IDLE, BTN_INACTIVE);
           Some (ST_PRESS, 0, BTN_IDLE, BTN_INACTIVE);
           Some (ST_PRESS, 1, BTN_IDLE, BTN_INACTIVE);
           Some (ST_PRESS, 2, BTN_IDLE, BTN_INACTIVE);
           Some (ST_HOLD, 3, BTN_PRESSED, BTN_ACTIVE) ].
Proof. split; vm_compute; reflexivity. Qed.

(** ** buttons.c: what the calls leave alone *)

Lemma BtnBuffer_store_frame (kb kb' : KeyboardType) (i : Z)
    (f : ButtonType -> ButtonType) :
  BtnBuffer_store kb i f = Ok kb' ->
  Kbd.Buttons kb' = Kbd.Buttons kb /\ Kbd.Sample kb' = Kbd.Sample kb
  /\ Kbd.Counter kb' = Kbd.Counter kb
  /\ 0 <= i
  /\ (forall j : nat, j <> Z.to_nat i ->
        Kbd.BtnBuffer kb' !! j = Kbd.BtnBuffer kb !! j).
Proof.
  intros H. apply BtnBuffer_store_Ok in H as (b & Hi & Hb & ->). simpl.
  repeat split; try assumption.
  intros j Hj. apply list_lookup_insert_ne. congruence.
Qed.

Lemma insert_same_config (buf : list ButtonType) (i : nat) (b b' : ButtonType) :
  buf !! i = Some b -> config b' = config b ->
  config <$> <[i := b']> buf = config <$> buf.
Proof.
  intros Hb Hcfg. rewrite list_fmap_insert. apply list_insert_id.
  rewrite list_lookup_fmap, Hb, Hcfg. reflexivity.
Qed.

Lemma MainFunction_loop_config (R : PinReader) (N : Z) (n : nat) (btn : Z)
    (buf buf' : list ButtonType) :
  MainFunction_loop R N n btn buf = Ok buf' ->
  config <$> buf' = config <$> buf.
Proof.
  revert btn buf. induction n as [|n IH]; intros btn buf H; simpl in H.
  - injection H as <-. reflexivity.
  - inv_bind_as H b Hget. inv_bind_as H b' Hstep. inv_bind_as H buf1 Hset.
    apply array_get_Ok in Hget as [_ Hb]. apply array_set_Ok in Hset as [_ ->].
    rewrite (IH _ _ H).
    eapply insert_same_config; [exact Hb | eapply Sample_Button_config; exact Hstep].
Qed.

Lemma Buttons_MainFunction_frame (R : PinReader) (kb kb' : KeyboardType) :
  Buttons_MainFunction R kb = Ok kb' ->
  Kbd.Buttons kb' = Kbd.Buttons kb /\ Kbd.Sample kb' = Kbd.Sample kb
  /\ Kbd.Counter kb' = Kbd.Counter kb
  /\ config <$> Kbd.BtnBuffer kb' = config <$> Kbd.BtnBuffer kb.
Proof.
  unfold Buttons_MainFunction. intros H. inv_bind_as H buf Hloop.
  injection H as <-. simpl. repeat split.
  eapply MainFunction_loop_config. exact Hloop.
Qed.

Lemma Buttons_GetEvent_frame (kb kb' : KeyboardType) (Button : Z) (e : BtnEvents) :
  Buttons_GetEvent kb Button = Ok (e, kb') ->
  Kbd.Buttons kb' = Kbd.Buttons kb /\ Kbd.Sample kb' = Kbd.Sample kb
  /\ Kbd.Counter kb' = Kbd.Counter kb
  /\ config <$> Kbd.BtnBuffer kb' = config <$> Kbd.BtnBuffer kb.
Proof.
  unfold Buttons_GetEvent. destruct (Button <=? Kbd.Counter kb).
  - intros H. inv_bind_as H b Hget. inv_bind_as H kb1 Hstore.
    injection H as _ <-.
    apply BtnBuffer_store_Ok in Hstore as (b1 & _ & Hb1 & ->). simpl.
    repeat split. eapply insert_same_config; [exact Hb1 | reflexivity].
  - intros [= _ <-]. auto.
Qed.

Lemma Buttons_Register_frame (kb kb' : KeyboardType) (Pin Port ActiveLevel r : Z) :
  Buttons_Register kb Pin Port ActiveLevel = Ok (r, kb') ->
  Kbd.Buttons kb' = Kbd.Buttons kb /\ Kbd.Sample kb' = Kbd.Sample kb
  /\ (forall j : nat, Z.of_nat j < Kbd.Counter kb ->
        Kbd.BtnBuffer kb' !! j = Kbd.BtnBuffer kb !! j).
Proof.
  unfold Buttons_Register. destruct (Kbd.Counter kb <? Kbd.Buttons kb).
  - intros H.
    inv_bind_as H k1 H1. apply BtnBuffer_store_frame in H1 as (B1 & S1 & C1 & Hi & F1).
    inv_bind_as H k2 H2. apply BtnBuffer_store_frame in H2 as (B2 & S2 & C2 & _ & F2).
    inv_bind_as H k3 H3. apply BtnBuffer_store_frame in H3 as (B3 & S3 & C3 & _ & F3).
    inv_bind_as H k4 H4. apply BtnBuffer_store_frame in H4 as (B4 & S4 & C4 & _ & F4).
    inv_bind_as H k5 H5. apply BtnBuffer_store_frame in H5 as (B5 & S5 & C5 & _ & F5).
    inv_bind_as H k6 H6. apply BtnBuffer_store_frame in H6 as (B6 & S6 & C6 & _ & F6).
    injection H as _ <-. simpl.
    split; [congruence |]. split; [congruence |].
    intros j Hj.
    rewrite F6, F5, F4, F3, F2, F1 by lia. reflexivity.
  - intros [= _ <-]. auto.
Qed.

(** ** buttons.c: a tick does not fault on a well-formed keyboard *)

Lemma read_button_valid (R : PinReader) (b : ButtonType) :
  wired b ->
  exists level, read_button R b = Ok level.
Proof.
  intros Hw. destruct (read_button_wired R b Hw) as (port & _ & ->). eauto.
Qed.

Lemma Sample_Button_no_fault (R : PinReader) (b : ButtonType) (N : Z) :
  wired b ->
  exists b', Sample_Button R b N = Ok b'.
Proof.
  intros Hp. destruct (read_button_valid R b Hp) as [level Hread].
  destruct (Btn.smState b) eqn:Hst.
  - rewrite (Sample_Button_idle R b N level Hst Hread). eauto.
  - rewrite (Sample_Button_press R b N level Hst Hread). eauto.
  - rewrite (Sample_Button_hold R b N level Hst Hread). eauto.
  - rewrite (Sample_Button_release R b N level Hst Hread). eauto.
Qed.

Lemma MainFunction_loop_no_fault (R : PinReader) (N : Z) (n btn : nat)
    (buf : list ButtonType) :
  (btn + n <= length buf)%nat ->
  (forall (i : nat) (b : ButtonType),
      (btn <= i < btn + n)%nat -> buf !! i = Some b ->
      wired b) ->
  exists buf', MainFunction_loop R N n (Z.of_nat btn) buf = Ok buf'.
Proof.
  revert btn buf. induction n as [|n IH]; intros btn buf Hlen Hports; simpl.
  - eauto.
  - destruct (lookup_lt_is_Some_2 buf btn ltac:(lia)) as [b Hb].
    rewrite (array_get_Some _ _ _ Hb). simpl.
    destruct (Sample_Button_no_fault R b N (Hports btn b ltac:(lia) Hb)) as [b' Hb'].
    rewrite Hb'. simpl. rewrite (array_set_Some _ _ _ b' Hb). simpl.
    replace (Z.of_nat btn + 1) with (Z.of_nat (Datatypes.S btn)) by lia.
    apply IH.
    + rewrite length_insert. lia.
    + intros i bi Hi Hbi. rewrite list_lookup_insert_ne in Hbi by lia.
      apply (Hports i bi); [lia | exact Hbi].
Qed.

Lemma Buttons_MainFunction_no_fault (R : PinReader) (kb : KeyboardType) :
  Keyboard_ok kb -> wiring_ok kb ->
  exists kb', Buttons_MainFunction R kb = Ok kb'.
Proof.
  intros [Hc Hlen] Hports. unfold Buttons_MainFunction.
  destruct (MainFunction_loop_no_fault R (Kbd.Sample kb)
              (Z.to_nat (Kbd.Counter kb)) 0 (Kbd.BtnBuffer kb)) as [buf Hbuf].
  - lia.
  - intros i b Hi Hb. apply (Hports i b); [lia | exact Hb].
  - change (Z.of_nat 0) with 0 in Hbuf. rewrite Hbuf. simpl. eauto.
Qed.

(** ** buttons.c: the one write of the wiring *)

Lemma Buttons_Register_stores (kb : KeyboardType) (Pin Port ActiveLevel : Z)
    (b : ButtonType) :
  Kbd.Counter kb < Kbd.Buttons kb -> 0 <= Kbd.Counter kb ->
  Kbd.BtnBuffer kb !! Z.to_nat (Kbd.Counter kb) = Some b ->
  Buttons_Register kb Pin Port ActiveLevel
  = Ok ((Kbd.Counter kb + 1) mod UINT8_MOD,
        Kbd.mk (Kbd.Buttons kb) (Kbd.Sample kb) ((Kbd.Counter kb + 1) mod UINT8_MOD)
               (<[Z.to_nat (Kbd.Counter kb) :=
                    Btn.mk Pin Port (Btn.Counter b) BTN_IDLE BTN_INACTIVE
                           ActiveLevel ST_IDLE]> (Kbd.BtnBuffer kb))).
Proof.
  intros Hroom Hc Hb. unfold Buttons_Register.
  rewrite (proj2 (Z.ltb_lt _ _) Hroom).
  destruct kb as [B Smp c buf]. simpl in *.
  pose proof (lookup_lt_Some _ _ _ Hb) as Hlt.
  remember (Z.to_nat c) as n eqn:Hn.
  assert (Hcn : c = Z.of_nat n) by lia. rewrite Hcn. clear Hn.
  rewrite (BtnBuffer_store_Some _ _ b) by exact Hb. simpl.
  repeat (erewrite BtnBuffer_store_Some
            by (simpl; apply list_lookup_insert_eq; rewrite ?length_insert; exact Hlt);
          simpl).
  rewrite !list_insert_insert_eq. reflexivity.
Qed.

Lemma Buttons_Register_Ok (kb kb' : KeyboardType) (Pin Port ActiveLevel r : Z) :
  Buttons_Register kb Pin Port ActiveLevel = Ok (r, kb') ->
  (Kbd.Counter kb < Kbd.Buttons kb /\ 0 <= Kbd.Counter kb
   /\ exists b0,
        Kbd.BtnBuffer kb !! Z.to_nat (Kbd.Counter kb) = Some b0
        /\ r = (Kbd.Counter kb + 1) mod UINT8_MOD
        /\ kb' = Kbd.mk (Kbd.Buttons kb) (Kbd.Sample kb)
                        ((Kbd.Counter kb + 1) mod UINT8_MOD)
                        (<[Z.to_nat (Kbd.Counter kb) :=
                             Btn.mk Pin Port (Btn.Counter b0) BTN_IDLE BTN_INACTIVE
                                    ActiveLevel ST_IDLE]> (Kbd.BtnBuffer kb)))
  \/ (Kbd.Buttons kb <= Kbd.Counter kb /\ r = 0 /\ kb' = kb).
Proof.
  intros H. destruct (Z.lt_ge_cases (Kbd.Counter kb) (Kbd.Buttons kb)) as [Hroom|Hfull].
  - left. assert (Hfirst : exists b0, 0 <= Kbd.Counter kb
                 /\ Kbd.BtnBuffer kb !! Z.to_nat (Kbd.Counter kb) = Some b0).
    { unfold Buttons_Register in H. rewrite (proj2 (Z.ltb_lt _ _) Hroom) in H.
      inv_bind_as H k1 H1. apply BtnBuffer_store_Ok in H1 as (b0 & Hi & Hb0 & _).
      eauto. }
    destruct Hfirst as (b0 & Hc & Hb0).
    rewrite (Buttons_Register_stores kb Pin Port ActiveLevel b0 Hroom Hc Hb0) in H.
    injection H as <- <-. split; [exact Hroom |]. split; [exact Hc |].
    exists b0. auto.
  - right. rewrite Buttons_Register_exhausted in H by lia.
    injection H as <- <-. auto.
Qed.

Lemma Buttons_step_frame (kb kb' : KeyboardType) (op : ButtonsOp) :
  Kbd.Buttons kb < UINT8_MOD ->
  Buttons_step kb op = Ok kb' ->
  Kbd.Buttons kb' = Kbd.Buttons kb /\ Kbd.Sample kb' = Kbd.Sample kb
  /\ Kbd.Counter kb <= Kbd.Counter kb'
  /\ (forall j : nat, Z.of_nat j < Kbd.Counter kb ->
        (config <$> Kbd.BtnBuffer kb') !! j = (config <$> Kbd.BtnBuffer kb) !! j).
Proof.
  intros Hcap H. destruct op as [Pin Port AL|Button|Button|R]; simpl in H.
  - inv_bind_as H r Hreg. destruct r as [r kb1]. injection H as <-. simpl.
    apply Buttons_Register_Ok in Hreg
      as [(Hroom & Hc & b0 & Hb0 & _ & ->)|(_ & _ & ->)].
    + simpl. unfold UINT8_MOD in *. rewrite Z.mod_small by lia.
      repeat split; try lia.
      intros j Hj. rewrite !list_lookup_fmap, list_lookup_insert_ne by lia.
      reflexivity.
    + repeat split; try lia; auto.
  - inv_bind_as H r Hget. destruct r as [r kb1]. injection H as <-. simpl.
    apply Buttons_GetStatus_frame in Hget as ->. repeat split; try lia; auto.
  - inv_bind_as H r Hget. destruct r as [e kb1]. injection H as <-. simpl.
    apply Buttons_GetEvent_frame in Hget as (HB & HS & HC & Hcfg).
    rewrite Hcfg. repeat split; try lia; auto.
  - apply Buttons_MainFunction_frame in H as (HB & HS & HC & Hcfg).
    rewrite Hcfg. repeat split; try lia; auto.
Qed.

Lemma Buttons_run_frame (ops : list ButtonsOp) (kb kb' : KeyboardType) :
  Kbd.Buttons kb < UINT8_MOD ->
  Buttons_run kb ops = Ok kb' ->
  Kbd.Buttons kb' = Kbd.Buttons kb /\ Kbd.Sample kb' = Kbd.Sample kb
  /\ Kbd.Counter kb <= Kbd.Counter kb'
  /\ (forall j : nat, Z.of_nat j < Kbd.Counter kb ->
        (config <$> Kbd.BtnBuffer kb') !! j = (config <$> Kbd.BtnBuffer kb) !! j).
Proof.
  revert kb. induction ops as [|op ops IH]; intros kb Hcap H; simpl in H.
  - injection H as <-. repeat split; try lia; auto.
  - inv_bind_as H kb1 Hstep.
    destruct (Buttons_step_frame kb kb1 op Hcap Hstep) as (HB & HS & HC & Hcfg).
    destruct (IH kb1 ltac:(rewrite HB; exact Hcap) H) as (HB' & HS' & HC' & Hcfg').
    split; [congruence |]. split; [congruence |]. split; [lia |].
    intros j Hj. rewrite Hcfg' by lia. apply Hcfg. exact Hj.
Qed.

Lemma Buttons_Register_writes (kb kb' : KeyboardType) (Pin Port ActiveLevel r : Z) :
  Buttons_Register kb Pin Port ActiveLevel = Ok (r, kb') ->
  Kbd.Counter kb < Kbd.Buttons kb ->
  (exists b, Kbd.BtnBuffer kb' !! Z.to_nat (Kbd.Counter kb) = Some b
             /\ config b = (Pin, Port, ActiveLevel))
  /\ (forall j : nat, j <> Z.to_nat (Kbd.Counter kb) ->
        Kbd.BtnBuffer kb' !! j = Kbd.BtnBuffer kb !! j)
  /\ r = (Kbd.Counter kb + 1) mod UINT8_MOD
  /\ Kbd.Counter kb' = (Kbd.Counter kb + 1) mod UINT8_MOD.
Proof.
  intros H Hroom.
  apply Buttons_Register_Ok in H as [(_ & Hc & b0 & Hb0 & -> & ->)|(Hfull & _)];
    [| lia].
  simpl. split; [| split; [| auto]].
  - eexists. split; [apply list_lookup_insert_eq; eapply lookup_lt_Some; exact Hb0 |].
    reflexivity.
  - intros j Hj. apply list_lookup_insert_ne. congruence.
Qed.

Lemma Buttons_Register_full (kb kb' : KeyboardType) (Pin Port ActiveLevel r : Z) :
  Buttons_Register kb Pin Port ActiveLevel = Ok (r, kb') ->
  Kbd.Buttons kb <= Kbd.Counter kb -> r = 0 /\ kb' = kb.
Proof.
  intros H Hfull. rewrite Buttons_Register_exhausted in H by exact Hfull.
  injection H as <- <-. auto.
Qed.

(** C10. The wiring of a button (pin, port, active level) is written by
    the [Buttons_Register] call that registers it and by nothing else.
    [Buttons_MainFunction], [Buttons_GetStatus] and [Buttons_GetEvent]
    leave the wiring of every slot as it was, and leave the declared
    capacity, the threshold and the registered count as they were.
    [Buttons_Register] with room writes the given wiring into the slot at
    the registered count, leaves every other slot as it was and increments
    the count; without room it changes nothing; either way it leaves the
    capacity, the threshold and the slots of the buttons registered
    before as they were.  Hence over any sequence of calls of the four
    functions (capacity within [uint8_t]) the count does not decrease and
    the wiring of every button registered before the sequence is as it
    was.  On a keyboard whose storage holds the registered buttons, each
    wired to a port of [Ports] and a pin from 0 to 30, a tick does
    return. *)
Theorem Buttons_configuration_frame :
  (forall (R : PinReader) (kb kb' : KeyboardType),
      Buttons_MainFunction R kb = Ok kb' ->
      Kbd.Buttons kb' = Kbd.Buttons kb /\ Kbd.Sample kb' = Kbd.Sample kb
      /\ Kbd.Counter kb' = Kbd.Counter kb
      /\ config <$> Kbd.BtnBuffer kb' = config <$> Kbd.BtnBuffer kb)
  /\ (forall (kb kb' : KeyboardType) (Button r : Z),
        Buttons_GetStatus kb Button = Ok (r, kb') -> kb' = kb)
  /\ (forall (kb kb' : KeyboardType) (Button : Z) (e : BtnEvents),
        Buttons_GetEvent kb Button = Ok (e, kb') ->
        Kbd.Buttons kb' = Kbd.Buttons kb /\ Kbd.Sample kb' = Kbd.Sample kb
        /\ Kbd.Counter kb' = Kbd.Counter kb
        /\ config <$> Kbd.BtnBuffer kb' = config <$> Kbd.BtnBuffer kb)
  /\ (forall (kb kb' : KeyboardType) (Pin Port ActiveLevel r : Z),
        Buttons_Register kb Pin Port ActiveLevel = Ok (r, kb') ->
        Kbd.Buttons kb' = Kbd.Buttons kb /\ Kbd.Sample kb' = Kbd.Sample kb
        /\ (forall j : nat, Z.of_nat j < Kbd.Counter kb ->
              Kbd.BtnBuffer kb' !! j = Kbd.BtnBuffer kb !! j))
  /\ (forall (R : PinReader) (kb : KeyboardType),
        Keyboard_ok kb -> wiring_ok kb ->
        exists kb', Buttons_MainFunction R kb = Ok kb')
  /\ (forall (kb kb' : KeyboardType) (Pin Port ActiveLevel r : Z),
        Buttons_Register kb Pin Port ActiveLevel = Ok (r, kb') ->
        Kbd.Counter kb < Kbd.Buttons kb ->
        (exists b, Kbd.BtnBuffer kb' !! Z.to_nat (Kbd.Counter kb) = Some b
                   /\ config b = (Pin, Port, ActiveLevel))
        /\ (forall j : nat, j <> Z.to_nat (Kbd.Counter kb) ->
              Kbd.BtnBuffer kb' !! j = Kbd.BtnBuffer kb !! j)
        /\ r = (Kbd.Counter kb + 1) mod UINT8_MOD
        /\ Kbd.Counter kb' = (Kbd.Counter kb + 1) mod UINT8_MOD)
  /\ (forall (kb kb' : KeyboardType) (Pin Port ActiveLevel r : Z),
        Buttons_Register kb Pin Port ActiveLevel = Ok (r, kb') ->
        Kbd.Buttons kb <= Kbd.Counter kb -> r = 0 /\ kb' = kb)
  /\ (forall (ops : list ButtonsOp) (kb kb' : KeyboardType),
        Kbd.Buttons kb < UINT8_MOD ->
        Buttons_run kb ops = Ok kb' ->
        Kbd.Buttons kb' = Kbd.Buttons kb /\ Kbd.Sample kb' = Kbd.Sample kb
        /\ Kbd.Counter kb <= Kbd.Counter kb'
        /\ (forall j : nat, Z.of_nat j < Kbd.Counter kb ->
              (config <$> Kbd.BtnBuffer kb') !! j
              = (config <$> Kbd.BtnBuffer kb) !! j)).
Proof.
  split; [exact Buttons_MainFunction_frame |].
  split; [exact Buttons_GetStatus_frame |].
  split; [exact Buttons_GetEvent_frame |].
  split; [exact Buttons_Register_frame |].
  split; [exact Buttons_MainFunction_no_fault |].
  split; [exact Buttons_Register_writes |].
  split; [exact Buttons_Register_full |].
  exact Buttons_run_frame.
Qed.

(** ** The statements above at concrete inputs *)

Ltac blocks_fit :=
  repeat first
    [ apply Forall_nil_2
    | apply Forall_cons_2; [vm_compute; first [exact I | discriminate] |] ].

Lemma Sample_Button_confirms_on_contradicting_sample_witness :
  exists b1 b2 : ButtonType,
    Sample_run [1; 1; 1] fresh_button 3 = Ok b1
    /\ Btn.smState b1 = ST_PRESS
    /\ Btn.Status b1 = BTN_INACTIVE /\ Btn.Event b1 = BTN_IDLE
    /\ Sample_Button (all_pins 0) b1 3 = Ok b2
    /\ Btn.smState b2 = ST_HOLD
    /\ Btn.Event b2 = BTN_PRESSED /\ Btn.Status b2 = BTN_ACTIVE.
Proof.
  apply (Sample_Button_confirms_on_contradicting_sample 3 fresh_button 0).
  - unfold UINT8_MOD. lia.
  - reflexivity.
  - reflexivity.
  - reflexivity.
  - simpl. lia.
  - simpl. lia.
  - simpl. lia.
Defined.

Lemma Queue_fill_overflow_drain_witness :
  exists q_full q_end,
    Queue_write_all (Queue_Init [x00; x00; x00; x00] 2 2) [[x01; x02]; [x03; x04]]
      = Ok ([TRUE; TRUE], q_full)
    /\ Queue_WriteData q_full [x05; x06] = Ok (FALSE, q_full)
    /\ Queue_read_all q_full [[xff; xff; xff]; [xee; xee]]
      = Ok ([(TRUE, [x01; x02; xff]); (TRUE, [x03; x04])], q_end)
    /\ Que.Empty q_end = TRUE.
Proof.
  apply (Queue_fill_overflow_drain [x00; x00; x00; x00] 2 2
           [[x01; x02]; [x03; x04]] [x05; x06] [[xff; xff; xff]; [xee; xee]]).
  - unfold Queue_storage_ok, UINT8_MOD, UINT32_MOD. simpl. lia.
  - reflexivity.
  - blocks_fit.
  - reflexivity.
  - blocks_fit.
Defined.

Lemma Queue_reachable_invariant_witness :
  Queue_run (Queue_Init [x00; x00] 2 1)
    [OpWriteData [x01]; OpWriteData [x02]; OpWriteData [x03]; OpReadData [x00];
     OpIsQueueEmpty; OpFlushQueue; OpWriteData [x07]]
  = Ok (Que.mk [x07; x02] 2 1 1 0 FALSE FALSE)
  /\ (0 <= 1 < 2) /\ (0 <= 0 < 2)
  /\ (FALSE = TRUE -> 1 = 0) /\ (FALSE = TRUE -> 1 = 0)
  /\ ~ (FALSE = TRUE /\ FALSE = TRUE).
Proof.
  split; [reflexivity |].
  apply (Queue_reachable_invariant [x00; x00] 2 1
           [OpWriteData [x01]; OpWriteData [x02]; OpWriteData [x03]; OpReadData [x00];
            OpIsQueueEmpty; OpFlushQueue; OpWriteData [x07]]
           (Que.mk [x07; x02] 2 1 1 0 FALSE FALSE)).
  - lia.
  - reflexivity.
Defined.

Lemma Queue_capacity_precondition_witness :
  Queue_WriteData (Queue_Init [x00; x00] 0 2) [x01; x02] = Err DivisionByZero
  /\ exists q,
       Queue_run (Queue_Init [x00; x00; x00; x00] 2 2)
         [OpWriteData [x01; x02]; OpReadData [x00; x00]; OpReadData [x00; x00]]
       = Ok q.
Proof.
  destruct Queue_capacity_precondition as (_ & _ & Hzero & Hpos). split.
  - apply Hzero; simpl; lia.
  - apply Hpos.
    + unfold Queue_storage_ok, UINT8_MOD, UINT32_MOD. simpl. lia.
    + blocks_fit.
Defined.

Lemma Buttons_GetStatus_last_and_zero_index_witness :
  0 < Kbd.Counter held_keyboard
  /\ Buttons_GetStatus held_keyboard 0 = Err OutOfBounds
  /\ Buttons_GetStatus held_keyboard (Kbd.Counter held_keyboard)
     = Ok (BTN_INACTIVE, held_keyboard).
Proof.
  destruct Buttons_GetStatus_last_and_zero_index as (Hlast & _ & Hzero).
  assert (Hc : 0 < Kbd.Counter held_keyboard) by (simpl; lia).
  split; [exact Hc |]. split; [exact (Hzero held_keyboard Hc) | exact (Hlast held_keyboard)].
Defined.

Lemma Buttons_GetEvent_index_zero_witness :
  0 <= Kbd.Counter held_keyboard
  /\ Buttons_GetEvent held_keyboard 0 = Err OutOfBounds.
Proof.
  assert (Hc : 0 <= Kbd.Counter held_keyboard) by (simpl; lia).
  split; [exact Hc | exact (Buttons_GetEvent_index_zero held_keyboard Hc)].
Defined.

Lemma Buttons_Register_capacity_witness :
  exists r kb',
    Buttons_Register (Buttons_Init 2 3 [zeroed_button; zeroed_button]) 5 1 0
      = Ok (r, kb')
    /\ Kbd.Counter kb' <= Kbd.Buttons kb'
    /\ r = 1 /\ Kbd.Counter kb' = 1.
Proof.
  destruct (Buttons_Register_capacity
              (Buttons_Init 2 3 [zeroed_button; zeroed_button]) 5 1 0)
    as (r & kb' & Hreg & Hle & Hroom & _).
  - simpl. lia.
  - unfold UINT8_MOD. simpl. lia.
  - simpl. lia.
  - destruct Hroom as (Hr & Hc & _); [simpl; lia |].
    exists r, kb'. auto.
Defined.

Lemma Buttons_configuration_frame_witness :
  Kbd.Buttons demo_keyboard < UINT8_MOD
  /\ Buttons_run demo_keyboard demo_calls = Ok demo_keyboard_after
  /\ Kbd.Counter demo_keyboard <= Kbd.Counter demo_keyboard_after
  /\ (config <$> Kbd.BtnBuffer demo_keyboard_after) !! 0%nat
     = (config <$> Kbd.BtnBuffer demo_keyboard) !! 0%nat.
Proof.
  assert (Hcap : Kbd.Buttons demo_keyboard < UINT8_MOD) by reflexivity.
  assert (Hr : Buttons_run demo_keyboard demo_calls = Ok demo_keyboard_after)
    by (vm_compute; reflexivity).
  assert (Hreg : Z.of_nat 0 < Kbd.Counter demo_keyboard) by reflexivity.
  destruct Buttons_configuration_frame as (_ & _ & _ & _ & _ & _ & _ & Hrun).
  destruct (Hrun demo_calls demo_keyboard demo_keyboard_after Hcap Hr)
    as (_ & _ & HC & Hcfg).
  split; [exact Hcap |]. split; [exact Hr |]. split; [exact HC |].
  exact (Hcfg 0%nat Hreg).
Defined.

(** The contradicting sample on the threshold tick, through
    [Buttons_MainFunction]: threshold 3, samples [active, active, active,
    inactive]. *)
Lemma scenario_glitch_on_threshold_tick :
  scenario_trace 3 [1; 1; 1; 0]
  = Ok [ Some (ST_PRESS, 0, BTN_IDLE, BTN_INACTIVE);
         Some (ST_PRESS, 1, BTN_IDLE, BTN_INACTIVE);
         Some (ST_PRESS, 2, BTN_IDLE, BTN_INACTIVE);
         Some (ST_HOLD, 3, BTN_PRESSED, BTN_ACTIVE) ].
Proof. vm_compute. reflexivity. Qed.

(* ===================================================================== *)
(** * Further properties of queue.c *)
(* ===================================================================== *)

(** ** Bytes of the storage around a copied block *)

Lemma lookup_patch (buf chunk : list byte) (a p : nat) :
  (a + length chunk <= length buf)%nat ->
  (take a buf ++ chunk ++ drop (a + length chunk) buf) !! p
  = if decide (p < a)%nat then buf !! p
    else if decide (p < a + length chunk)%nat then chunk !! (p - a)%nat
    else buf !! p.
Proof.
  intros Hlen.
  assert (Ha : length (take a buf) = a) by (rewrite length_take; lia).
  destruct (decide (p < a)%nat) as [Hp|Hp].
  - rewrite lookup_app_l by lia. apply lookup_take_lt. exact Hp.
  - rewrite lookup_app_r by lia. rewrite Ha.
    destruct (decide (p < a + length chunk)%nat) as [Hq|Hq].
    + apply lookup_app_l. lia.
    + rewrite lookup_app_r by lia. rewrite lookup_drop. f_equal. lia.
Qed.

Lemma slot_patch_same (s : nat) (buf chunk : list byte) (h : nat) :
  length chunk = s -> (h * s + s <= length buf)%nat ->
  slot s (take (h * s) buf ++ chunk ++ drop (h * s + s) buf) h = chunk.
Proof.
  intros Hc Hlen. unfold slot.
  rewrite drop_app_length' by (rewrite length_take; lia).
  apply take_app_length'. symmetry. exact Hc.
Qed.

Lemma slot_patch_other (s : nat) (buf chunk : list byte) (h i : nat) :
  length chunk = s -> (h * s + s <= length buf)%nat -> i <> h ->
  slot s (take (h * s) buf ++ chunk ++ drop (h * s + s) buf) i = slot s buf i.
Proof.
  intros Hc Hlen Hne. unfold slot. apply list_eq. intros j.
  rewrite !lookup_take. destruct (decide (j < s)%nat) as [Hj|Hj]; [| reflexivity].
  rewrite !lookup_drop.
  replace (h * s + s)%nat with (h * s + length chunk)%nat by lia.
  rewrite lookup_patch by lia.
  destruct (decide (i * s + j < h * s)%nat) as [H1|H1]; [reflexivity |].
  destruct (decide (i * s + j < h * s + length chunk)%nat) as [H2|H2];
    [| reflexivity].
  exfalso. rewrite Hc in H2. nia.
Qed.

(** ** Index arithmetic modulo the capacity *)

Lemma mod_shift (C T k : Z) :
  0 <= T < C -> 0 <= k <= C ->
  (T + k) mod C = if T + k <? C then T + k else T + k - C.
Proof.
  intros HT Hk. destruct (Z.ltb_spec (T + k) C).
  - apply Z.mod_small. lia.
  - symmetry. apply (Z.mod_unique (T + k) C 1); lia.
Qed.

Lemma mod_shift_inj (C T k k' : Z) :
  0 <= T < C -> 0 <= k < C -> 0 <= k' < C ->
  (T + k) mod C = (T + k') mod C -> k = k'.
Proof.
  intros HT Hk Hk'. rewrite !mod_shift by lia.
  destruct (T + k <? C) eqn:E1, (T + k' <? C) eqn:E2;
    try apply Z.ltb_lt in E1; try apply Z.ltb_ge in E1;
    try apply Z.ltb_lt in E2; try apply Z.ltb_ge in E2; lia.
Qed.

Lemma mod_shift_range (C T k : Z) :
  0 <= T < C -> 0 <= k <= C -> 0 <= (T + k) mod C < C.
Proof. intros HT Hk. apply Z.mod_pos_bound. lia. Qed.

Lemma mod_shift_succ (C T k : Z) :
  0 < C -> ((T + k) mod C + 1) mod C = (T + (k + 1)) mod C.
Proof.
  intros HC. rewrite Z.add_mod_idemp_l by lia. f_equal. lia.
Qed.

Lemma mod_shift_next (C T k : Z) :
  0 < C -> ((T + 1) mod C + k) mod C = (T + (k + 1)) mod C.
Proof.
  intros HC. rewrite Z.add_mod_idemp_l by lia. f_equal. lia.
Qed.

(** ** queue.c against the bounded first-in first-out list *)

Section QueueRefinement.
Variable buf0 : list byte.
Variables C S : Z.
Hypothesis storage : Queue_storage_ok buf0 C S.

Lemma Queue_Init_holds : Queue_holds buf0 C S (Queue_Init buf0 C S) [].
Proof.
  destruct storage as (HS & HC & Hlen & H32).
  unfold Queue_holds, Queue_Init.
  cbn [Que.Elements Que.Size Que.Buffer Que.Head Que.Tail Que.Empty Que.Full length].
  change (Z.of_nat 0) with 0.
  repeat split; try lia.
  - destruct (Z.eqb_spec 0 C); [lia | reflexivity].
  - intros k e Hk. discriminate.
Qed.

Lemma Queue_holds_storage (q : QueueType) (l : list (list byte)) :
  Queue_holds buf0 C S q l ->
  Queue_storage_ok (Que.Buffer q) (Que.Elements q) (Que.Size q).
Proof.
  intros (HE & HSz & HL & _). unfold Queue_storage_ok.
  rewrite HE, HSz, HL. exact storage.
Qed.

Lemma Queue_WriteData_holds (q : QueueType) (l : list (list byte)) (d : list byte) :
  Queue_holds buf0 C S q l -> block_fits S d ->
  Z.of_nat (length l) < C ->
  exists q', Queue_WriteData q d = Ok (TRUE, q')
             /\ Queue_holds buf0 C S q' (l ++ [take (Z.to_nat S) d]).
Proof.
  intros Hq Hd Hn. pose proof (Queue_holds_storage q l Hq) as Hst.
  destruct Hq as (HE & HSz & HL & HT & Hle & HH & HF & HEm & Hslots).
  pose proof storage as (HS & HC & Hlen & H32).
  assert (Hneq : (Z.of_nat (length l) =? C) = false) by (apply Z.eqb_neq; lia).
  rewrite Hneq in HF.
  pose proof (mod_shift_range C (Que.Tail q) (Z.of_nat (length l)) HT ltac:(lia)) as Hh.
  rewrite <- HH in Hh.
  eexists. split.
  { apply Queue_WriteData_not_full; [exact HF | rewrite HE; exact Hh | exact Hst |].
    rewrite HSz. exact Hd. }
  cbv zeta. rewrite HE, HSz.
  remember (Z.to_nat (Que.Head q)) as hn eqn:Hhn.
  assert (Hhz : Que.Head q = Z.of_nat hn) by lia.
  rewrite Hhz at 1 2.
  destruct (slot_offset_nat buf0 C S storage hn) as [-> ->].
  assert (Hchunk : length (take (Z.to_nat S) d) = Z.to_nat S)
    by (rewrite length_take; unfold block_fits in Hd; lia).
  assert (Hroom : (hn * Z.to_nat S + Z.to_nat S <= length (Que.Buffer q))%nat)
    by (rewrite HL; nia).
  unfold Queue_holds. simpl.
  split; [reflexivity |]. split; [reflexivity |].
  split; [rewrite !length_app, length_take, length_drop, Hchunk; lia |].
  split; [exact HT |]. rewrite length_app. simpl length.
  replace (Z.of_nat (length l + 1)) with (Z.of_nat (length l) + 1) by lia.
  split; [lia |].
  rewrite HH, mod_shift_succ by lia.
  split; [reflexivity |]. split; [| split].
  - rewrite mod_shift by lia.
    destruct (Z.ltb_spec (Que.Tail q + (Z.of_nat (length l) + 1)) C);
      destruct (Z.eqb_spec (Z.of_nat (length l) + 1) C);
      match goal with |- (if ?a =? ?b then _ else _) = _ =>
        destruct (Z.eqb_spec a b) end; try reflexivity; lia.
  - destruct (Z.eqb_spec (Z.of_nat (length l) + 1) 0); [lia | reflexivity].
  - intros k e Hk.
    destruct (decide (k < length l)%nat) as [Hlt|Hge].
    + rewrite lookup_app_l in Hk by exact Hlt.
      rewrite slot_patch_other; [apply Hslots; exact Hk | exact Hchunk | exact Hroom |].
      intros Heq. rewrite Hhn, HH in Heq.
      pose proof (mod_shift_range C (Que.Tail q) (Z.of_nat k) HT ltac:(lia)).
      pose proof (mod_shift_range C (Que.Tail q) (Z.of_nat (length l)) HT ltac:(lia)).
      apply Z2Nat.inj in Heq; [| lia | lia].
      apply mod_shift_inj in Heq; lia.
    + pose proof (lookup_lt_Some _ _ _ Hk) as Hk'.
      rewrite length_app in Hk'. simpl in Hk'.
      assert (k = length l) as -> by lia.
      rewrite lookup_app_r, Nat.sub_diag in Hk by lia. injection Hk as <-.
      rewrite <- HH, <- Hhn. apply slot_patch_same; assumption.
Qed.
Lemma Queue_ReadData_holds (q : QueueType) (e : list byte) (l : list (list byte))
    (d : list byte) :
  Queue_holds buf0 C S q (e :: l) -> block_fits S d ->
  exists q', Queue_ReadData q d = Ok (TRUE, e ++ drop (Z.to_nat S) d, q')
             /\ Queue_holds buf0 C S q' l.
Proof.
  intros Hq Hd. pose proof (Queue_holds_storage q _ Hq) as Hst.
  destruct Hq as (HE & HSz & HL & HT & Hle & HH & HF & HEm & Hslots).
  pose proof storage as (HS & HC & Hlen & H32).
  simpl length in *.
  replace (Z.of_nat (Datatypes.S (length l))) with (Z.of_nat (length l) + 1) in * by lia.
  assert (Hneq : (Z.of_nat (length l) + 1 =? 0) = false) by (apply Z.eqb_neq; lia).
  rewrite Hneq in HEm.
  eexists. split.
  { rewrite Queue_ReadData_not_empty;
      [| exact HEm | rewrite HE; exact HT | exact Hst | rewrite HSz; exact Hd].
    rewrite HSz.
    remember (Z.to_nat (Que.Tail q)) as tn eqn:Htn.
    assert (Htz : Que.Tail q = Z.of_nat tn) by lia.
    rewrite Htz at 1.
    destruct (slot_offset_nat buf0 C S storage tn) as [-> _].
    specialize (Hslots 0%nat e eq_refl).
    change (Z.of_nat 0) with 0 in Hslots.
    rewrite Z.add_0_r, Z.mod_small, <- Htn in Hslots by lia.
    unfold slot in Hslots. rewrite Hslots. reflexivity. }
  cbv zeta. rewrite HE. unfold Queue_holds. simpl.
  pose proof (mod_shift_range C (Que.Tail q) 1 HT ltac:(lia)) as Ht1.
  split; [first [exact HE | reflexivity] |].
  split; [first [exact HSz | reflexivity] |]. split; [exact HL |].
  split; [exact Ht1 |]. split; [lia |].
  rewrite mod_shift_next by lia.
  split; [exact HH |]. split; [| split].
  - destruct (Z.eqb_spec (Z.of_nat (length l)) C); [lia | reflexivity].
  - rewrite HH. rewrite <- (mod_shift_next C (Que.Tail q) (Z.of_nat (length l))) by lia.
    destruct (Z.eqb_spec (Z.of_nat (length l)) 0) as [H0|H0].
    + rewrite H0, Z.add_0_r, Z.mod_mod, Z.eqb_refl by lia. reflexivity.
    + match goal with |- (if ?a =? ?b then _ else _) = _ =>
        destruct (Z.eqb_spec a b) as [Heq|Hne] end; [| reflexivity].
      exfalso. rewrite (mod_shift C ((Que.Tail q + 1) mod C)) in Heq by lia.
      destruct (_ <? C) in Heq; lia.
  - intros k e' Hk.
    replace (((Que.Tail q + 1) mod C + Z.of_nat k) mod C)
      with ((Que.Tail q + Z.of_nat (Datatypes.S k)) mod C).
    + apply Hslots. exact Hk.
    + rewrite mod_shift_next by lia. f_equal. lia.
Qed.

Lemma Queue_call_holds (q : QueueType) (l : list (list byte)) (op : QueueOp) :
  Queue_holds buf0 C S q l -> op_fits S op ->
  exists q', Queue_call q op = Ok (fst (fifo_call C (Z.to_nat S) l op), q')
             /\ Queue_holds buf0 C S q' (snd (fifo_call C (Z.to_nat S) l op)).
Proof.
  intros Hq Hfit. destruct op as [d|d| |]; simpl in *.
  - destruct (Z.ltb_spec (Z.of_nat (length l)) C) as [Hlt|Hge].
    + destruct (Queue_WriteData_holds q l d Hq Hfit Hlt) as (q' & -> & Hq').
      simpl. eauto.
    + exists q. split; [| exact Hq].
      rewrite Queue_WriteData_full; [reflexivity |].
      destruct Hq as (_ & _ & _ & _ & Hle & _ & -> & _).
      destruct (Z.eqb_spec (Z.of_nat (length l)) C); [discriminate | lia].
  - destruct l as [|e l].
    + exists q. split; [| exact Hq].
      rewrite Queue_ReadData_empty; [reflexivity |].
      destruct Hq as (_ & _ & _ & _ & _ & _ & _ & -> & _). discriminate.
    + destruct (Queue_ReadData_holds q e l d Hq Hfit) as (q' & -> & Hq').
      simpl. eauto.
  - exists q. split; [| exact Hq].
    destruct Hq as (_ & _ & _ & _ & _ & _ & _ & -> & _).
    destruct l; reflexivity.
  - eexists. split; [reflexivity |].
    destruct Hq as (HE & HSz & HL & _). unfold Queue_FlushQueue.
    rewrite HE, HSz. pose proof storage as (HS & HC & Hlen & H32).
    unfold Queue_holds, Queue_Init.
    cbn [Que.Elements Que.Size Que.Buffer Que.Head Que.Tail Que.Empty Que.Full length].
    change (Z.of_nat 0) with 0.
    repeat split; try lia.
    + destruct (Z.eqb_spec 0 C); [lia | reflexivity].
    + intros k e Hk. discriminate.
Qed.

Lemma Queue_calls_holds (ops : list QueueOp) (q : QueueType) (l : list (list byte)) :
  Queue_holds buf0 C S q l -> Forall (op_fits S) ops ->
  exists q', Queue_calls q ops = Ok (fst (fifo_calls C (Z.to_nat S) l ops), q')
             /\ Queue_holds buf0 C S q' (snd (fifo_calls C (Z.to_nat S) l ops)).
Proof.
  revert q l. induction ops as [|op ops IH]; intros q l Hq Hfit; simpl.
  - eauto.
  - inversion Hfit as [|? ? Hop Hops]; subst.
    destruct (Queue_call_holds q l op Hq Hop) as (q1 & -> & Hq1). simpl.
    destruct (IH q1 _ Hq1 Hops) as (q2 & -> & Hq2). simpl. eauto.
Qed.
End QueueRefinement.

(** X1. On storage that is large enough, any sequence of calls of the queue
    interface, in any interleaving, hands back exactly what the bounded
    first-in first-out list of capacity [C] hands back: a write returns
    [TRUE] unless [C] elements are stored, a read returns the oldest
    stored element in the first [S] bytes of its block and [TRUE], or
    [FALSE] with the block untouched when nothing is stored, the empty
    query tells whether nothing is stored, and a flush drops everything
    stored. *)
Theorem Queue_refines_fifo (buf : list byte) (C S : Z) (ops : list QueueOp) :
  Queue_storage_ok buf C S -> Forall (op_fits S) ops ->
  exists q,
    Queue_calls (Queue_Init buf C S) ops
    = Ok (fst (fifo_calls C (Z.to_nat S) [] ops), q).
Proof.
  intros Hst Hfit.
  destruct (Queue_calls_holds buf C S Hst ops (Queue_Init buf C S) []
              (Queue_Init_holds buf C S Hst) Hfit) as (q & Hq & _).
  exists q. exact Hq.
Qed.

(** X2. After any sequence of calls, with [l] the elements stored (those
    written and not yet read since the last flush): [Head] is [length l]
    slots after [Tail] modulo the capacity, [Queue_isQueueEmpty] returns
    [TRUE] exactly when [l] is empty, [Full] is set exactly when [l] has
    [C] elements, and the k-th element of [l] is in slot
    [(Tail + k) mod C] of the storage. *)
Theorem Queue_flags_count (buf : list byte) (C S : Z) (ops : list QueueOp)
    (outs : list QueueOut) (q : QueueType) :
  Queue_storage_ok buf C S -> Forall (op_fits S) ops ->
  Queue_calls (Queue_Init buf C S) ops = Ok (outs, q) ->
  let l := snd (fifo_calls C (Z.to_nat S) [] ops) in
  Z.of_nat (length l) <= C
  /\ Que.Head q = (Que.Tail q + Z.of_nat (length l)) mod C
  /\ (fst (Queue_isQueueEmpty q) = TRUE <-> l = [])
  /\ (Que.Full q = TRUE <-> Z.of_nat (length l) = C)
  /\ (forall (k : nat) (e : list byte),
        l !! k = Some e ->
        slot (Z.to_nat S) (Que.Buffer q)
             (Z.to_nat ((Que.Tail q + Z.of_nat k) mod C)) = e).
Proof.
  intros Hst Hfit Hrun l.
  destruct (Queue_calls_holds buf C S Hst ops (Queue_Init buf C S) []
              (Queue_Init_holds buf C S Hst) Hfit) as (q' & Hq' & Hholds).
  rewrite Hrun in Hq'. injection Hq' as _ <-. fold l in Hholds.
  destruct Hholds as (_ & _ & _ & _ & Hle & HH & HF & HE & Hslots).
  split; [exact Hle |]. split; [exact HH |]. split; [| split; [| exact Hslots]].
  - simpl. rewrite HE. destruct l as [|e l']; simpl.
    + split; reflexivity.
    + split; intros H; discriminate.
  - rewrite HF. destruct (Z.eqb_spec (Z.of_nat (length l)) C).
    + split; [intros _; assumption | reflexivity].
    + split; [discriminate | contradiction].
Qed.

(** ** queue.c: what a call leaves alone *)

Lemma memcpy_Ok (dst : list byte) (doff : Z) (src : list byte) (soff n : Z)
    (out : list byte) :
  memcpy dst doff src soff n = Ok out ->
  0 <= n /\ 0 <= doff /\ doff + n <= Z.of_nat (length dst)
  /\ 0 <= soff /\ soff + n <= Z.of_nat (length src)
  /\ out = take (Z.to_nat doff) dst
           ++ take (Z.to_nat n) (drop (Z.to_nat soff) src)
           ++ drop (Z.to_nat (doff + n)) dst.
Proof.
  unfold memcpy.
  destruct (Z.leb_spec 0 n); [| discriminate].
  destruct (Z.leb_spec 0 doff); [| discriminate].
  destruct (Z.leb_spec (doff + n) (Z.of_nat (length dst))); [| discriminate].
  destruct (Z.leb_spec 0 soff); [| discriminate].
  destruct (Z.leb_spec (soff + n) (Z.of_nat (length src))); [| discriminate].
  simpl. intros [= <-]. auto 10.
Qed.

(** X3. [Queue_WriteData] never touches a byte of the storage outside the
    [Size] bytes of the slot at [Head], never changes the length of the
    storage, and leaves [Tail], [Elements] and [Size] as they were. *)
Theorem Queue_WriteData_touches_one_slot (q q' : QueueType) (Data : list byte)
    (r : Z) :
  Queue_WriteData q Data = Ok (r, q') ->
  let off := (Que.Head q * Que.Size q) mod UINT32_MOD in
  length (Que.Buffer q') = length (Que.Buffer q)
  /\ (forall p : nat,
        ~ (off <= Z.of_nat p < off + Que.Size q) ->
        Que.Buffer q' !! p = Que.Buffer q !! p)
  /\ Que.Tail q' = Que.Tail q
  /\ Que.Elements q' = Que.Elements q
  /\ Que.Size q' = Que.Size q.
Proof.
  intros H off. unfold Queue_WriteData in H.
  destruct (Que.Full q =? FALSE).
  - inv_bind_as H buf Hcpy. simpl in H. inv_bind_as H h Hmod. simpl in H.
    pose proof (memcpy_length _ _ _ _ _ _ Hcpy) as Hlen.
    apply memcpy_Ok in Hcpy as (Hn & Hoff & Hend & _ & Hsrc & ->).
    fold off in Hoff, Hend, Hlen |- *.
    assert (Hq' : Que.Buffer q'
                  = take (Z.to_nat off) (Que.Buffer q)
                    ++ take (Z.to_nat (Que.Size q)) (drop (Z.to_nat 0) Data)
                    ++ drop (Z.to_nat (off + Que.Size q)) (Que.Buffer q)
                  /\ Que.Tail q' = Que.Tail q /\ Que.Elements q' = Que.Elements q
                  /\ Que.Size q' = Que.Size q)
      by (destruct (_ =? _) in H; injection H as _ <-; simpl; auto).
    destruct Hq' as (Hbuf & HT & HE & HS).
    split; [rewrite Hbuf; exact Hlen |]. split; [| auto].
    intros p Hp. rewrite Hbuf.
    assert (Hchunk : length (take (Z.to_nat (Que.Size q)) (drop (Z.to_nat 0) Data))
                     = Z.to_nat (Que.Size q))
      by (rewrite length_take, length_drop; lia).
    replace (Z.to_nat (off + Que.Size q))
      with (Z.to_nat off + length (take (Z.to_nat (Que.Size q))
                                        (drop (Z.to_nat 0) Data)))%nat
      by (rewrite Hchunk; lia).
    rewrite lookup_patch by (rewrite Hchunk; lia).
    destruct (decide (p < Z.to_nat off)%nat); [reflexivity |].
    destruct (decide _); [| reflexivity].
    exfalso. rewrite Hchunk in *. lia.
  - injection H as _ <-. auto.
Qed.

(** X4. [Queue_ReadData] never changes the storage, [Head], [Elements] or
    [Size], and in the caller's block changes at most the first [Size]
    bytes: the length of the block and its bytes from [Size] on are as
    they were. *)
Theorem Queue_ReadData_frame (q q' : QueueType) (Data out : list byte) (r : Z) :
  Queue_ReadData q Data = Ok (r, out, q') ->
  Que.Buffer q' = Que.Buffer q
  /\ Que.Head q' = Que.Head q
  /\ Que.Elements q' = Que.Elements q
  /\ Que.Size q' = Que.Size q
  /\ length out = length Data
  /\ drop (Z.to_nat (Que.Size q)) out = drop (Z.to_nat (Que.Size q)) Data.
Proof.
  unfold Queue_ReadData. intros H.
  destruct (Que.Empty q =? FALSE).
  - inv_bind_as H blk Hcpy. simpl in H. inv_bind_as H t Hmod. simpl in H.
    pose proof (memcpy_length _ _ _ _ _ _ Hcpy) as Hlen.
    apply memcpy_Ok in Hcpy as (Hn & _ & Hend & Hoff & Hsrc & Hblk).
    assert (Hq' : out = blk /\ Que.Buffer q' = Que.Buffer q
                  /\ Que.Head q' = Que.Head q
                  /\ Que.Elements q' = Que.Elements q
                  /\ Que.Size q' = Que.Size q)
      by (destruct (_ =? _) in H; injection H as _ <- <-; simpl; auto).
    destruct Hq' as (-> & HB & HH & HE & HS).
    repeat (split; [assumption |]).
    rewrite Hblk. simpl.
    rewrite drop_app_length'; [reflexivity |].
    rewrite length_take, length_drop. lia.
  - injection H as _ <- <-. auto 10.
Qed.

(* ===================================================================== *)
(** * Further properties of buttons.c *)
(* ===================================================================== *)

(** ** One tick, button by button *)

Lemma MainFunction_loop_slots (R : PinReader) (N : Z) (n : nat) (btn : Z)
    (buf buf' : list ButtonType) :
  0 <= btn ->
  MainFunction_loop R N n btn buf = Ok buf' ->
  length buf' = length buf
  /\ forall i : nat,
       (btn <= Z.of_nat i < btn + Z.of_nat n ->
        exists b b', buf !! i = Some b /\ Sample_Button R b N = Ok b'
                     /\ buf' !! i = Some b')
       /\ (~ (btn <= Z.of_nat i < btn + Z.of_nat n) -> buf' !! i = buf !! i).
Proof.
  revert btn buf. induction n as [|n IH]; intros btn buf Hbtn H; simpl in H.
  - injection H as <-. split; [reflexivity |]. intros i. split; [lia | auto].
  - inv_bind_as H b Hget. inv_bind_as H b1 Hstep. inv_bind_as H buf1 Hset.
    apply array_get_Ok in Hget as [_ Hb]. apply array_set_Ok in Hset as [_ ->].
    pose proof (lookup_lt_Some _ _ _ Hb) as Hlt.
    destruct (IH (btn + 1) _ ltac:(lia) H) as [Hlen Hslots].
    rewrite length_insert in Hlen. split; [exact Hlen |].
    intros i. destruct (Hslots i) as [Hin Hout]. split.
    + intros Hi. destruct (decide (i = Z.to_nat btn)) as [->|Hne].
      * exists b, b1. split; [exact Hb |]. split; [exact Hstep |].
        rewrite Hout by lia. apply list_lookup_insert_eq. exact Hlt.
      * destruct Hin as (b2 & b2' & Hb2 & Hs2 & Hb2'); [lia |].
        rewrite list_lookup_insert_ne in Hb2 by congruence. eauto.
    + intros Hi. rewrite Hout by lia. apply list_lookup_insert_ne. lia.
Qed.

Lemma Buttons_MainFunction_slot (R : PinReader) (kb kb' : KeyboardType) :
  Buttons_MainFunction R kb = Ok kb' ->
  forall i : nat,
    (Z.of_nat i < Kbd.Counter kb ->
     exists b b', Kbd.BtnBuffer kb !! i = Some b
                  /\ Sample_Button R b (Kbd.Sample kb) = Ok b'
                  /\ Kbd.BtnBuffer kb' !! i = Some b')
    /\ (Kbd.Counter kb <= Z.of_nat i ->
        Kbd.BtnBuffer kb' !! i = Kbd.BtnBuffer kb !! i).
Proof.
  unfold Buttons_MainFunction. intros H i.
  inv_bind_as H buf Hloop. injection H as <-. simpl.
  destruct (MainFunction_loop_slots R _ _ 0 _ _ ltac:(lia) Hloop) as [_ Hslots].
  destruct (Hslots i) as [Hin Hout]. split.
  - intros Hi. apply Hin. lia.
  - intros Hi. apply Hout. lia.
Qed.

(** X5. One call of [Buttons_MainFunction] that returns has applied
    [Sample_Button] exactly once to every registered button, each on its
    own slot as it was before the call, with the shared threshold; the
    slots of the storage beyond the registered count are as they were. *)
Theorem Buttons_MainFunction_each_button (R : PinReader) (kb kb' : KeyboardType) :
  Buttons_MainFunction R kb = Ok kb' ->
  forall i : nat,
    (Z.of_nat i < Kbd.Counter kb ->
     exists b b', Kbd.BtnBuffer kb !! i = Some b
                  /\ Sample_Button R b (Kbd.Sample kb) = Ok b'
                  /\ Kbd.BtnBuffer kb' !! i = Some b')
    /\ (Kbd.Counter kb <= Z.of_nat i ->
        Kbd.BtnBuffer kb' !! i = Kbd.BtnBuffer kb !! i).
Proof.
  unfold Buttons_MainFunction. intros H i.
  inv_bind_as H buf Hloop. injection H as <-. simpl.
  destruct (MainFunction_loop_slots R _ _ 0 _ _ ltac:(lia) Hloop) as [_ Hslots].
  destruct (Hslots i) as [Hin Hout]. split.
  - intros Hi. apply Hin. lia.
  - intros Hi. apply Hout. lia.
Qed.

(** ** Fetching an event once *)

Lemma Sample_Button_quiet (R : PinReader) (b b' : ButtonType) (N : Z) :
  Sample_Button R b N = Ok b' -> confirms_edge b b' = false ->
  Btn.Event b' = Btn.Event b.
Proof.
  intros H Hq. destruct (Sample_Button_Ok_read _ _ _ _ H) as [level Hread].
  unfold confirms_edge in Hq. destruct (Btn.smState b) eqn:Hst.
  - rewrite (Sample_Button_idle R b N level Hst Hread) in H.
    destruct (level =? _); injection H as <-; reflexivity.
  - rewrite (Sample_Button_press R b N level Hst Hread) in H. cbv zeta in H.
    destruct (N <=? _); injection H as <-; [discriminate | reflexivity].
  - rewrite (Sample_Button_hold R b N level Hst Hread) in H.
    destruct (level =? _); injection H as <-; reflexivity.
  - rewrite (Sample_Button_release R b N level Hst Hread) in H. cbv zeta in H.
    destruct (N <=? _); injection H as <-; [discriminate | reflexivity].
Qed.

(** A tick that confirms an edge does raise the event: the converse of
    [Sample_Button_quiet]. *)
Lemma Sample_Button_edge (R : PinReader) (b b' : ButtonType) (N : Z) :
  Sample_Button R b N = Ok b' -> confirms_edge b b' = true ->
  Btn.Event b' = BTN_PRESSED \/ Btn.Event b' = BTN_RELEASED.
Proof.
  intros H Hq. destruct (Sample_Button_Ok_read _ _ _ _ H) as [level Hread].
  unfold confirms_edge in Hq. destruct (Btn.smState b) eqn:Hst.
  - discriminate.
  - rewrite (Sample_Button_press R b N level Hst Hread) in H. cbv zeta in H.
    destruct (N <=? _); injection H as <-; [auto |].
    simpl in Hq. destruct (level =? _); discriminate.
  - discriminate.
  - rewrite (Sample_Button_release R b N level Hst Hread) in H. cbv zeta in H.
    destruct (N <=? _); injection H as <-; [auto |].
    simpl in Hq. destruct (level =? _); discriminate.
Qed.

Lemma quiet_ticks_event (i : nat) (ticks : list PinReader) (kb kbn : KeyboardType)
    (b : ButtonType) :
  quiet_ticks i ticks kb kbn ->
  Z.of_nat i < Kbd.Counter kb ->
  Kbd.BtnBuffer kb !! i = Some b ->
  Kbd.Counter kbn = Kbd.Counter kb
  /\ exists bn, Kbd.BtnBuffer kbn !! i = Some bn /\ Btn.Event bn = Btn.Event b.
Proof.
  revert kb b. induction ticks as [|R ticks IH]; intros kb b Hq Hi Hb; simpl in Hq.
  - subst kbn. eauto.
  - destruct Hq as (kb1 & b0 & b1 & Htick & Hb0 & Hb1 & Hquiet & Hrest).
    rewrite Hb in Hb0. injection Hb0 as <-.
    destruct (Buttons_MainFunction_slot R kb kb1 Htick i) as [Hin _].
    destruct (Hin Hi) as (b0 & b1' & Hb0 & Hs & Hb1').
    rewrite Hb in Hb0. injection Hb0 as <-.
    rewrite Hb1 in Hb1'. injection Hb1' as <-.
    pose proof (Sample_Button_quiet _ _ _ _ Hs Hquiet) as Hev.
    destruct (Buttons_MainFunction_frame R kb kb1 Htick) as (_ & _ & HC & _).
    destruct (IH kb1 b1 Hrest ltac:(lia) Hb1) as (HCn & bn & Hbn & Hevn).
    split; [lia |]. exists bn. split; [exact Hbn | congruence].
Qed.

(** C7. For a registered button (1-based index between 1 and the
    registered count, the storage holding the registered buttons),
    [Buttons_GetEvent] returns the stored event, and the next
    [Buttons_GetEvent] for the same index returns no event, whatever the
    first call returned: both when it follows at once, and when any
    number of [Buttons_MainFunction] ticks lie in between in which that
    button confirms no edge (no tick takes it from [ST_PRESS] to
    [ST_HOLD] or from [ST_RELEASE] to [ST_IDLE]). *)
Theorem Buttons_GetEvent_one_shot (kb : KeyboardType) (Button : Z) :
  1 <= Button <= Kbd.Counter kb ->
  Kbd.Counter kb <= Z.of_nat (length (Kbd.BtnBuffer kb)) ->
  exists (b : ButtonType) (kb' kb'' : KeyboardType),
    Kbd.BtnBuffer kb !! Z.to_nat (Button - 1) = Some b
    /\ Buttons_GetEvent kb Button = Ok (Btn.Event b, kb')
    /\ Buttons_GetEvent kb' Button = Ok (BTN_IDLE, kb'')
    /\ forall (ticks : list PinReader) (kbn : KeyboardType),
         quiet_ticks (Z.to_nat (Button - 1)) ticks kb' kbn ->
         exists kbm, Buttons_GetEvent kbn Button = Ok (BTN_IDLE, kbm).
Proof.
  intros Hi Hlen.
  destruct (lookup_lt_is_Some_2 (Kbd.BtnBuffer kb) (Z.to_nat (Button - 1))
              ltac:(lia)) as [b Hb].
  pose proof (lookup_lt_Some _ _ _ Hb) as Hlt.
  assert (HB : Button = Z.of_nat (Z.to_nat (Button - 1)) + 1) by lia.
  set (kb' := Kbd.set_BtnBuffer
                (<[Z.to_nat (Button - 1) := Btn.set_Event BTN_IDLE b]>
                   (Kbd.BtnBuffer kb)) kb).
  assert (Hb' : Kbd.BtnBuffer kb' !! Z.to_nat (Button - 1)
                = Some (Btn.set_Event BTN_IDLE b))
    by (apply list_lookup_insert_eq; exact Hlt).
  exists b, kb'. eexists. split; [exact Hb |]. split; [| split].
  - rewrite HB at 1. apply Buttons_GetEvent_registered; [lia | exact Hb].
  - rewrite HB at 1.
    rewrite (Buttons_GetEvent_registered _ _ (Btn.set_Event BTN_IDLE b));
      [reflexivity | simpl; lia | exact Hb'].
  - intros ticks kbn Hq.
    destruct (quiet_ticks_event _ ticks kb' kbn _ Hq ltac:(simpl; lia) Hb')
      as (HCn & bn & Hbn & Hev).
    assert (Hle : Z.of_nat (Z.to_nat (Button - 1)) + 1 <= Kbd.Counter kbn)
      by (simpl in HCn; lia).
    pose proof (Buttons_GetEvent_registered kbn _ bn Hle Hbn) as HG.
    rewrite <- HB, Hev in HG. simpl in HG. eauto.
Qed.

(** ** How long a steady level takes to be confirmed *)

Lemma Sample_run_app (l1 l2 : list Z) (b : ButtonType) (N : Z) :
  Sample_run (l1 ++ l2) b N = (b1 ← Sample_run l1 b N; Sample_run l2 b1 N).
Proof.
  revert b. induction l1 as [|l l1 IH]; intros b; simpl.
  - reflexivity.
  - destruct (Sample_Button (all_pins l) b N) as [b1|f]; simpl; [apply IH | reflexivity].
Qed.

Section Latency.
Variable N : Z.
Hypothesis N_range : 1 <= N < UINT8_MOD.

Lemma Sample_run_release_progress (levels : list Z) (A : Z) (b : ButtonType) :
  Btn.smState b = ST_RELEASE -> Btn.ActiveLevel b = A ->
  wired b ->
  0 <= Btn.Counter b -> Btn.Counter b + Z.of_nat (length levels) < N ->
  Forall (fun l => l <> A) levels ->
  Sample_run levels b N
  = Ok (Btn.set_Counter (Btn.Counter b + Z.of_nat (length levels)) b).
Proof.
  revert b. induction levels as [|l levels IH]; intros b Hst HA Hport Hc Hk Hall; simpl.
  - destruct b; simpl in *. rewrite Z.add_0_r. reflexivity.
  - inversion Hall as [|? ? Hl Hall']; subst.
    rewrite (Sample_Button_release _ b N _ Hst (read_button_all_pins b _ Hport)).
    cbv zeta. unfold UINT8_MOD in *. simpl length in Hk.
    rewrite (Z.mod_small (Btn.Counter b + 1)) by lia.
    destruct (Z.leb_spec N (Btn.Counter b + 1)); [lia |].
    destruct (Z.eqb_spec l (Btn.ActiveLevel b)); [contradiction |]. simpl.
    rewrite IH by (simpl; (reflexivity || assumption || lia)).
    destruct b; simpl in *. unfold Btn.set_Counter. simpl.
    subst. do 2 f_equal. lia.
Qed.

Lemma Sample_run_hold_to_release (l : Z) (levels : list Z) (b : ButtonType) :
  Btn.smState b = ST_HOLD ->
  wired b ->
  Z.of_nat (length levels) < N ->
  Forall (fun l => l <> Btn.ActiveLevel b) (l :: levels) ->
  Sample_run (l :: levels) b N
  = Ok (Btn.set_Counter (Z.of_nat (length levels)) (Btn.set_smState ST_RELEASE b)).
Proof.
  intros Hst Hport Hk Hall. inversion Hall as [|? ? Hl Hall']; subst. simpl.
  rewrite (Sample_Button_hold _ b N _ Hst (read_button_all_pins b _ Hport)).
  destruct (Z.eqb_spec l (Btn.ActiveLevel b)); [contradiction |]. simpl.
  rewrite (Sample_run_release_progress levels (Btn.ActiveLevel b))
    by (simpl; (reflexivity || assumption || lia)).
  reflexivity.
Qed.

Lemma Sample_Button_release_threshold (R : PinReader) (b : ButtonType) (level : Z) :
  Btn.smState b = ST_RELEASE -> read_button R b = Ok level ->
  Btn.Counter b + 1 = N ->
  exists b', Sample_Button R b N = Ok b'
             /\ Btn.smState b' = ST_IDLE
             /\ Btn.Event b' = BTN_RELEASED
             /\ Btn.Status b' = BTN_INACTIVE.
Proof.
  intros Hst Hread Hc.
  rewrite (Sample_Button_release R b N level Hst Hread). cbv zeta.
  unfold UINT8_MOD in *. rewrite Z.mod_small by lia.
  destruct (Z.leb_spec N (Btn.Counter b + 1)); [| lia].
  eexists. split; [reflexivity |]. simpl. auto.
Qed.
End Latency.

(** X6. A button in [ST_IDLE], wired to a port of [Ports] and a pin from 0
    to 30, that sees the active level on every tick is confirmed on tick
    [N + 1] exactly, for every threshold [N] from 1 to 255: after any [k] ticks with [1 <= k <= N] it is in [ST_PRESS] with
    event and status as they were, and after [N + 1] ticks it is in
    [ST_HOLD] with the pressed event and the active status. *)
Theorem press_confirmed_after_window (N : Z) (b : ButtonType) :
  1 <= N < UINT8_MOD ->
  Btn.smState b = ST_IDLE ->
  0 <= Btn.Port b < Z.of_nat (length Ports) ->
  0 <= Btn.Pin b < 31 ->
  (forall k : nat,
      (1 <= k <= Z.to_nat N)%nat ->
      exists bk, Sample_run (replicate k (Btn.ActiveLevel b)) b N = Ok bk
                 /\ Btn.smState bk = ST_PRESS
                 /\ Btn.Event bk = Btn.Event b /\ Btn.Status bk = Btn.Status b)
  /\ exists b', Sample_run (replicate (Z.to_nat N + 1) (Btn.ActiveLevel b)) b N = Ok b'
                /\ Btn.smState b' = ST_HOLD
                /\ Btn.Event b' = BTN_PRESSED /\ Btn.Status b' = BTN_ACTIVE.
Proof.
  intros HN Hst Hp Hpin. assert (Hport : wired b) by (split; assumption). split.
  - intros k Hk. destruct k as [|k]; [lia |].
    rewrite (Sample_run_idle_to_press N HN) by (assumption || lia).
    eexists. split; [reflexivity |]. simpl. auto.
  - rewrite Nat.add_1_r, replicate_S_end, Sample_run_app.
    replace (Z.to_nat N) with (Datatypes.S (Z.to_nat (N - 1))) by lia.
    rewrite (Sample_run_idle_to_press N HN) by (assumption || lia). simpl.
    set (b1 := Btn.set_Counter _ _).
    destruct (Sample_Button_press_threshold N HN (all_pins (Btn.ActiveLevel b))
                b1 (Btn.ActiveLevel b)) as (b2 & Hb2 & Hs2 & He2 & Ha2).
    + reflexivity.
    + apply read_button_all_pins. exact Hport.
    + subst b1. simpl. lia.
    + rewrite Hb2. simpl. eauto.
Qed.

(** X7. A button in [ST_HOLD], wired to a port of [Ports] and a pin from 0
    to 30, that sees levels other than the active one is released on tick
    [N + 1] exactly, for every threshold [N] from 1 to 255: after [k] such ticks with [1 <= k <= N] it is in [ST_RELEASE]
    with event and status as they were; after [N] such ticks the next
    tick, whatever its sample, leaves it in [ST_IDLE] with the released
    event and the inactive status. *)
Theorem release_confirmed_after_window (N : Z) (b : ButtonType) (levels : list Z) :
  1 <= N < UINT8_MOD ->
  Btn.smState b = ST_HOLD ->
  0 <= Btn.Port b < Z.of_nat (length Ports) ->
  0 <= Btn.Pin b < 31 ->
  Forall (fun l => l <> Btn.ActiveLevel b) levels ->
  (1 <= length levels <= Z.to_nat N)%nat ->
  (exists bk, Sample_run levels b N = Ok bk
              /\ Btn.smState bk = ST_RELEASE
              /\ Btn.Event bk = Btn.Event b /\ Btn.Status bk = Btn.Status b)
  /\ (length levels = Z.to_nat N ->
      forall last : Z,
        exists b', Sample_run (levels ++ [last]) b N = Ok b'
                   /\ Btn.smState b' = ST_IDLE
                   /\ Btn.Event b' = BTN_RELEASED
                   /\ Btn.Status b' = BTN_INACTIVE).
Proof.
  intros HN Hst Hp Hpin Hall Hlen. assert (Hport : wired b) by (split; assumption).
  destruct levels as [|l levels]; [simpl in Hlen; lia |]. simpl length in Hlen.
  pose proof (Sample_run_hold_to_release N HN l levels b Hst Hport ltac:(lia) Hall)
    as Hrun.
  split.
  - rewrite Hrun. eexists. split; [reflexivity |]. simpl. auto.
  - intros Hfull last. rewrite Sample_run_app, Hrun. simpl.
    set (b1 := Btn.set_Counter _ _).
    destruct (Sample_Button_release_threshold N HN (all_pins last) b1 last)
      as (b2 & Hb2 & Hs2 & He2 & Ha2).
    + reflexivity.
    + apply read_button_all_pins. exact Hport.
    + subst b1. simpl. simpl in Hfull. lia.
    + rewrite Hb2. simpl. eauto.
Qed.

(** ** Both edges of the confirmation window *)

Section BothEdges.
Variables N A : Z.
Hypothesis N_range : 1 <= N < UINT8_MOD.

Lemma window_inv_step (hist : list Z) (b b' : ButtonType) (l : Z) :
  window_inv N A hist b ->
  Sample_Button (all_pins l) b N = Ok b' ->
  window_inv N A (hist ++ [l]) b'.
Proof.
  intros [HA Hinv] Hstep.
  destruct (Sample_Button_Ok_read _ _ _ _ Hstep) as [level Hread].
  pose proof (read_button_all_pins_Ok _ _ _ Hread) as ->.
  unfold window_inv. destruct (Btn.smState b) eqn:Hst.
  - rewrite (Sample_Button_idle _ b N l Hst Hread) in Hstep.
    destruct (Z.eqb_spec l (Btn.ActiveLevel b)) as [Heq|Hne];
      injection Hstep as <-; simpl.
    + split; [assumption |]. split; [assumption |]. split; [lia |].
      exists hist. simpl. congruence.
    + rewrite Hst. auto.
  - destruct Hinv as (Hstatus & Hc & older & Hhist).
    rewrite (Sample_Button_press _ b N l Hst Hread) in Hstep. cbv zeta in Hstep.
    unfold UINT8_MOD in *. rewrite Z.mod_small in Hstep by lia.
    destruct (Z.leb_spec N (Btn.Counter b + 1)).
    + injection Hstep as <-. simpl. auto.
    + destruct (Z.eqb_spec l (Btn.ActiveLevel b)) as [Heq|Hne];
        injection Hstep as <-; simpl; (split; [assumption |]); [| assumption].
      split; [assumption |]. split; [lia |].
      exists older. rewrite Hhist, <- app_assoc. f_equal.
      replace (Z.to_nat (Btn.Counter b + 1 + 1))
        with (Datatypes.S (Z.to_nat (Btn.Counter b + 1))) by lia.
      rewrite replicate_S_end. congruence.
  - rewrite (Sample_Button_hold _ b N l Hst Hread) in Hstep.
    destruct (Z.eqb_spec l (Btn.ActiveLevel b)) as [Heq|Hne];
      injection Hstep as <-; simpl.
    + rewrite Hst. auto.
    + split; [assumption |]. split; [assumption |]. split; [lia |].
      exists hist, [l]. split; [reflexivity |]. split; [reflexivity |].
      constructor; [congruence | constructor].
  - destruct Hinv as (Hstatus & Hc & older & recent & Hhist & Hlen & Hall).
    rewrite (Sample_Button_release _ b N l Hst Hread) in Hstep. cbv zeta in Hstep.
    unfold UINT8_MOD in *. rewrite Z.mod_small in Hstep by lia.
    destruct (Z.leb_spec N (Btn.Counter b + 1)).
    + injection Hstep as <-. simpl. auto.
    + destruct (Z.eqb_spec l (Btn.ActiveLevel b)) as [Heq|Hne];
        injection Hstep as <-; simpl; (split; [assumption |]); [assumption |].
      split; [assumption |]. split; [lia |].
      exists older, (recent ++ [l]).
      split; [rewrite Hhist, <- app_assoc; reflexivity |].
      split; [rewrite length_app; simpl; lia |].
      apply Forall_app. split; [exact Hall |].
      constructor; [congruence | constructor].
Qed.

Lemma window_inv_run (levels hist : list Z) (b b' : ButtonType) :
  window_inv N A hist b ->
  Sample_run levels b N = Ok b' ->
  window_inv N A (hist ++ levels) b'.
Proof.
  revert hist b. induction levels as [|l levels IH]; intros hist b Hinv Hrun;
    simpl in Hrun.
  - injection Hrun as <-. rewrite app_nil_r. exact Hinv.
  - inv_bind_as Hrun b1 Hstep.
    replace (hist ++ l :: levels) with ((hist ++ [l]) ++ levels)
      by (rewrite <- app_assoc; reflexivity).
    eapply IH; [| exact Hrun]. eapply window_inv_step; eassumption.
Qed.

Lemma window_inv_fresh (b0 : ButtonType) :
  Btn.smState b0 = ST_IDLE -> Btn.Status b0 = BTN_INACTIVE ->
  Btn.ActiveLevel b0 = A -> window_inv N A [] b0.
Proof. intros Hst Hs HA. unfold window_inv. rewrite Hst. auto. Qed.
End BothEdges.

(** X8. For a button that starts as [Buttons_Register] leaves it, sampled
    with a threshold [N] from 1 to 255: a tick turns the confirmed status
    from inactive to active only if the [N] samples before that tick were
    all at the active level, and from active to inactive only if the [N]
    samples before that tick were all away from the active level. *)
Theorem status_changes_only_after_window (N : Z) (levels : list Z)
    (b0 b b' : ButtonType) (l : Z) :
  1 <= N < UINT8_MOD ->
  Btn.smState b0 = ST_IDLE -> Btn.Status b0 = BTN_INACTIVE ->
  Sample_run levels b0 N = Ok b ->
  Sample_Button (all_pins l) b N = Ok b' ->
  (Btn.Status b = BTN_INACTIVE -> Btn.Status b' = BTN_ACTIVE ->
   exists older, levels = older ++ replicate (Z.to_nat N) (Btn.ActiveLevel b0))
  /\ (Btn.Status b = BTN_ACTIVE -> Btn.Status b' = BTN_INACTIVE ->
      exists older recent,
        levels = older ++ recent /\ length recent = Z.to_nat N
        /\ Forall (fun x => x <> Btn.ActiveLevel b0) recent).
Proof.
  intros HN Hst0 Hstatus0 Hrun Hstep.
  pose proof (window_inv_run N _ HN levels [] b0 b
                (window_inv_fresh N _ b0 Hst0 Hstatus0 eq_refl) Hrun) as [HA Hinv].
  simpl in Hinv.
  destruct (Sample_Button_Ok_read _ _ _ _ Hstep) as [level Hread].
  unfold UINT8_MOD, BTN_ACTIVE, BTN_INACTIVE in *.
  destruct (Btn.smState b) eqn:Hst.
  - rewrite (Sample_Button_idle _ b N _ Hst Hread) in Hstep.
    split; intros Hb Hb'; [| lia].
    destruct (level =? _); injection Hstep as <-; simpl in Hb'; lia.
  - destruct Hinv as (Hs & Hc & older & Hhist).
    rewrite (Sample_Button_press _ b N _ Hst Hread) in Hstep. cbv zeta in Hstep.
    unfold UINT8_MOD in Hstep. rewrite Z.mod_small in Hstep by lia.
    split; intros Hb Hb'; [| lia].
    destruct (Z.leb_spec N (Btn.Counter b + 1)).
    + exists older. rewrite Hhist. do 2 f_equal. lia.
    + injection Hstep as <-. simpl in Hb'. lia.
  - rewrite (Sample_Button_hold _ b N _ Hst Hread) in Hstep.
    split; intros Hb Hb'; [lia |].
    destruct (level =? _); injection Hstep as <-; simpl in Hb'; lia.
  - destruct Hinv as (Hs & Hc & older & recent & Hhist & Hlen & Hall).
    rewrite (Sample_Button_release _ b N _ Hst Hread) in Hstep. cbv zeta in Hstep.
    unfold UINT8_MOD in Hstep. rewrite Z.mod_small in Hstep by lia.
    split; intros Hb Hb'; [lia |].
    destruct (Z.leb_spec N (Btn.Counter b + 1)).
    + exists older, recent. split; [exact Hhist |]. split; [lia | exact Hall].
    + injection Hstep as <-. simpl in Hb'. lia.
Qed.

(** X9. For a button that starts as [Buttons_Register] leaves it, after any
    sequence of samples with a threshold [N] from 1 to 255: the confirmed
    status is active exactly in [ST_HOLD] and [ST_RELEASE] and inactive
    exactly in [ST_IDLE] and [ST_PRESS]; while a confirmation is under way
    the sample counter is below the threshold, so that the [uint8_t]
    counter does not wrap; pin, port and active level are as registered. *)
Theorem status_matches_phase (N : Z) (levels : list Z) (b0 b : ButtonType) :
  1 <= N < UINT8_MOD ->
  Btn.smState b0 = ST_IDLE -> Btn.Status b0 = BTN_INACTIVE ->
  Sample_run levels b0 N = Ok b ->
  (Btn.Status b = BTN_ACTIVE <->
   Btn.smState b = ST_HOLD \/ Btn.smState b = ST_RELEASE)
  /\ (Btn.Status b = BTN_INACTIVE <->
      Btn.smState b = ST_IDLE \/ Btn.smState b = ST_PRESS)
  /\ (Btn.smState b = ST_PRESS \/ Btn.smState b = ST_RELEASE ->
      0 <= Btn.Counter b < N)
  /\ Btn.ActiveLevel b = Btn.ActiveLevel b0.
Proof.
  intros HN Hst0 Hstatus0 Hrun.
  pose proof (window_inv_run N _ HN levels [] b0 b
                (window_inv_fresh N _ b0 Hst0 Hstatus0 eq_refl) Hrun) as [HA Hinv].
  unfold BTN_ACTIVE, BTN_INACTIVE in *.
  assert (Hphase :
    match Btn.smState b with
    | ST_IDLE => Btn.Status b = 0
    | ST_PRESS => Btn.Status b = 0 /\ 0 <= Btn.Counter b < N
    | ST_HOLD => Btn.Status b = 1
    | ST_RELEASE => Btn.Status b = 1 /\ 0 <= Btn.Counter b < N
    end) by (destruct (Btn.smState b); tauto).
  clear Hinv.
  destruct (Btn.smState b); (split; [| split; [| split; [| exact HA]]]);
    try (split; [intros Hs | intros [Hp|Hp]]);
    try (intros [Hp|Hp]);
    try discriminate; try lia; auto.
Qed.

(** ** The pending event *)

Lemma Sample_Button_event (R : PinReader) (b b' : ButtonType) (N : Z) :
  Sample_Button R b N = Ok b' ->
  Btn.Event b' = Btn.Event b
  \/ Btn.Event b' = BTN_PRESSED \/ Btn.Event b' = BTN_RELEASED.
Proof.
  intros H. destruct (Sample_Button_Ok_read _ _ _ _ H) as [level Hread].
  destruct (Btn.smState b) eqn:Hst.
  - rewrite (Sample_Button_idle R b N level Hst Hread) in H.
    destruct (level =? _); injection H as <-; auto.
  - rewrite (Sample_Button_press R b N level Hst Hread) in H. simpl in H.
    destruct (N <=? _); injection H as <-; auto.
  - rewrite (Sample_Button_hold R b N level Hst Hread) in H.
    destruct (level =? _); injection H as <-; auto.
  - rewrite (Sample_Button_release R b N level Hst Hread) in H. simpl in H.
    destruct (N <=? _); injection H as <-; auto.
Qed.

(** X10. Ticks never clear a pending event: if a registered button has an
    event that [Buttons_GetEvent] has not fetched, then after every one of
    any number of further [Buttons_MainFunction] calls the button still has
    an event pending (the same one, or the one of a later confirmation). *)
Theorem pending_event_survives_ticks (ticks : list PinReader)
    (kb : KeyboardType) (tr : list KeyboardType) (i : nat) (b : ButtonType) :
  MainFunction_trace ticks kb = Ok tr ->
  Z.of_nat i < Kbd.Counter kb ->
  Kbd.BtnBuffer kb !! i = Some b ->
  Btn.Event b <> BTN_IDLE ->
  Forall (fun kb' => exists b', Kbd.BtnBuffer kb' !! i = Some b'
                                /\ Btn.Event b' <> BTN_IDLE) tr.
Proof.
  revert kb tr b. induction ticks as [|R ticks IH]; intros kb tr b Htr Hi Hb Hev;
    simpl in Htr.
  - injection Htr as <-. constructor.
  - inv_bind_as Htr kb1 Hstep. inv_bind_as Htr rest Hrest. injection Htr as <-.
    destruct (Buttons_MainFunction_slot R kb kb1 Hstep i) as [Hin _].
    destruct (Hin Hi) as (b0 & b1 & Hb0 & Hs & Hb1).
    rewrite Hb in Hb0. injection Hb0 as <-.
    assert (Hev1 : Btn.Event b1 <> BTN_IDLE).
    { destruct (Sample_Button_event _ _ _ _ Hs) as [He|[He|He]];
        rewrite He; [exact Hev | discriminate | discriminate]. }
    destruct (Buttons_MainFunction_frame R kb kb1 Hstep) as (_ & _ & HC & _).
    constructor.
    + eauto.
    + apply (IH kb1 rest b1 Hrest); [rewrite HC; exact Hi | exact Hb1 | exact Hev1].
Qed.

(** ** Registering several buttons *)

Lemma Register_all_from (cfgs : list (Z * Z * Z)) (kb : KeyboardType) :
  0 <= Kbd.Counter kb <= Kbd.Buttons kb -> Kbd.Buttons kb < UINT8_MOD ->
  Kbd.Buttons kb <= Z.of_nat (length (Kbd.BtnBuffer kb)) ->
  exists rets kb',
    Register_all kb cfgs = Ok (rets, kb')
    /\ length rets = length cfgs
    /\ Kbd.Buttons kb' = Kbd.Buttons kb /\ Kbd.Sample kb' = Kbd.Sample kb
    /\ length (Kbd.BtnBuffer kb') = length (Kbd.BtnBuffer kb)
    /\ Kbd.Counter kb'
       = Z.min (Kbd.Counter kb + Z.of_nat (length cfgs)) (Kbd.Buttons kb)
    /\ (forall j : nat, Z.of_nat j < Kbd.Counter kb ->
          Kbd.BtnBuffer kb' !! j = Kbd.BtnBuffer kb !! j)
    /\ (forall (k : nat) (cfg : Z * Z * Z),
          cfgs !! k = Some cfg ->
          rets !! k
          = Some (if Kbd.Counter kb + Z.of_nat k <? Kbd.Buttons kb
                  then Kbd.Counter kb + Z.of_nat k + 1 else 0)
          /\ (Kbd.Counter kb + Z.of_nat k < Kbd.Buttons kb ->
              exists b,
                Kbd.BtnBuffer kb' !! Z.to_nat (Kbd.Counter kb + Z.of_nat k) = Some b
                /\ config b = cfg /\ Btn.Status b = BTN_INACTIVE
                /\ Btn.Event b = BTN_IDLE /\ Btn.smState b = ST_IDLE)).
Proof.
  revert kb. induction cfgs as [|[[Pin Port] AL] cfgs IH]; intros kb Hc Hcap Hlen.
  - exists [], kb. simpl. repeat split; try lia; auto; intros; discriminate.
  - simpl Register_all.
    destruct (Z.lt_ge_cases (Kbd.Counter kb) (Kbd.Buttons kb)) as [Hroom|Hfull].
    + destruct (lookup_lt_is_Some_2 (Kbd.BtnBuffer kb) (Z.to_nat (Kbd.Counter kb))
                  ltac:(lia)) as [b0 Hb0].
      pose proof (lookup_lt_Some _ _ _ Hb0) as Hlt0.
      rewrite (Buttons_Register_room kb Pin Port AL b0) by (assumption || lia).
      cbn [mbind result_bind fst snd].
      set (kb1 := Kbd.mk _ _ _ _).
      destruct (IH kb1) as (rets & kb' & Hrun & Hrl & HB & HS & HL & HCnt & Hold & Hnew).
      { subst kb1. simpl. lia. }
      { subst kb1. simpl. exact Hcap. }
      { subst kb1. simpl. rewrite length_insert. exact Hlen. }
      rewrite Hrun. cbn [mbind result_bind fst snd].
      eexists _, kb'. split; [reflexivity |].
      subst kb1. simpl in *. rewrite length_insert in HL.
      split; [lia |]. split; [exact HB |]. split; [exact HS |]. split; [exact HL |].
      split; [lia |]. split.
      * intros j Hj. rewrite Hold by lia. apply list_lookup_insert_ne. lia.
      * intros k cfg Hk. destruct k as [|k]; simpl in Hk.
        -- injection Hk as <-. simpl. rewrite Z.add_0_r.
           rewrite (proj2 (Z.ltb_lt _ _) Hroom). split; [reflexivity |].
           intros _. rewrite Hold by lia.
           eexists. split; [apply list_lookup_insert_eq; exact Hlt0 |].
           repeat split.
        -- destruct (Hnew k cfg Hk) as [Hret Hslot]. simpl.
           replace (Kbd.Counter kb + Z.of_nat (Datatypes.S k))
             with (Kbd.Counter kb + 1 + Z.of_nat k) by lia.
           split; [exact Hret | exact Hslot].
    + rewrite (Buttons_Register_exhausted kb Pin Port AL) by lia.
      cbn [mbind result_bind fst snd].
      destruct (IH kb Hc Hcap Hlen)
        as (rets & kb' & Hrun & Hrl & HB & HS & HL & HCnt & Hold & Hnew).
      rewrite Hrun. cbn [mbind result_bind fst snd].
      eexists _, kb'. split; [reflexivity |].
      split; [simpl; lia |]. split; [exact HB |]. split; [exact HS |].
      split; [exact HL |]. split; [simpl length; lia |]. split; [exact Hold |].
      intros k cfg Hk.
      assert (Hno : (Kbd.Counter kb + Z.of_nat k <? Kbd.Buttons kb) = false)
        by (apply Z.ltb_ge; lia).
      rewrite Hno. split; [| lia].
      destruct k as [|k]; simpl in Hk |- *; [reflexivity |].
      destruct (Hnew k cfg Hk) as [Hret _]. rewrite Hret.
      rewrite (proj2 (Z.ltb_ge _ _)) by lia. reflexivity.
Qed.

(** X11. Registering a list of buttons on a keyboard that [Buttons_Init]
    returned, with a capacity of at most 255 and storage for that many
    buttons: the k-th call (from 0) returns [k + 1] while [k] is below
    the capacity and 0 from then on; the registered count ends at the
    smaller of the number of calls and the capacity; and slot [k] holds
    the k-th pin, port and active level with status inactive, no event and
    phase idle. *)
Theorem Register_all_indices (NButtons Samples : Z) (Buffer : list ButtonType)
    (cfgs : list (Z * Z * Z)) :
  0 <= NButtons < UINT8_MOD ->
  NButtons <= Z.of_nat (length Buffer) ->
  exists rets kb',
    Register_all (Buttons_Init NButtons Samples Buffer) cfgs = Ok (rets, kb')
    /\ Kbd.Counter kb' = Z.min (Z.of_nat (length cfgs)) NButtons
    /\ (forall (k : nat) (cfg : Z * Z * Z),
          cfgs !! k = Some cfg ->
          rets !! k = Some (if Z.of_nat k <? NButtons then Z.of_nat k + 1 else 0)
          /\ (Z.of_nat k < NButtons ->
              exists b,
                Kbd.BtnBuffer kb' !! k = Some b
                /\ config b = cfg /\ Btn.Status b = BTN_INACTIVE
                /\ Btn.Event b = BTN_IDLE /\ Btn.smState b = ST_IDLE)).
Proof.
  intros HN Hlen.
  destruct (Register_all_from cfgs (Buttons_Init NButtons Samples Buffer))
    as (rets & kb' & Hrun & _ & _ & _ & _ & HCnt & _ & Hnew);
    try (simpl; lia).
  exists rets, kb'. split; [exact Hrun |].
  unfold Buttons_Init in HCnt, Hnew. cbn [Kbd.Counter Kbd.Buttons] in HCnt, Hnew.
  rewrite Z.add_0_l in HCnt. split; [exact HCnt |].
  intros k cfg Hk. destruct (Hnew k cfg Hk) as [Hret Hslot].
  rewrite Z.add_0_l in Hret, Hslot.
  split; [exact Hret |]. intros Hlt.
  destruct (Hslot Hlt) as (b & Hb & Hrest). rewrite Nat2Z.id in Hb. eauto.
Qed.

(** ** Fetching events and the state machine *)

Lemma Sample_Button_view (R : PinReader) (b1 b2 b1' : ButtonType) (N : Z) :
  debounce_view b1 = debounce_view b2 ->
  Sample_Button R b1 N = Ok b1' ->
  exists b2', Sample_Button R b2 N = Ok b2'
              /\ debounce_view b1' = debounce_view b2'.
Proof.
  intros Hview H.
  destruct b1 as [pin port c e1 st al sm], b2 as [pin2 port2 c2 e2 st2 al2 sm2].
  unfold debounce_view in Hview. simpl in Hview.
  injection Hview as <- <- <- <- <- <-.
  destruct (Sample_Button_Ok_read _ _ _ _ H) as [level Hread].
  assert (Hread2 : read_button R (Btn.mk pin port c e2 st al sm) = Ok level)
    by exact Hread.
  destruct sm.
  - rewrite (Sample_Button_idle R _ N level) in H by (reflexivity || exact Hread).
    rewrite (Sample_Button_idle R _ N level) by (reflexivity || exact Hread2).
    simpl in *. destruct (level =? al); injection H as <-;
      (eexists; split; [reflexivity |]); reflexivity.
  - rewrite (Sample_Button_press R _ N level) in H by (reflexivity || exact Hread).
    rewrite (Sample_Button_press R _ N level) by (reflexivity || exact Hread2).
    simpl in *. destruct (N <=? _); injection H as <-;
      (eexists; split; [reflexivity |]); reflexivity.
  - rewrite (Sample_Button_hold R _ N level) in H by (reflexivity || exact Hread).
    rewrite (Sample_Button_hold R _ N level) by (reflexivity || exact Hread2).
    simpl in *. destruct (level =? al); injection H as <-;
      (eexists; split; [reflexivity |]); reflexivity.
  - rewrite (Sample_Button_release R _ N level) in H by (reflexivity || exact Hread).
    rewrite (Sample_Button_release R _ N level) by (reflexivity || exact Hread2).
    simpl in *. destruct (N <=? _); injection H as <-;
      (eexists; split; [reflexivity |]); reflexivity.
Qed.

Lemma MainFunction_loop_view (R : PinReader) (N : Z) (n : nat) (btn : Z)
    (bufA bufB bufA' : list ButtonType) :
  debounce_view <$> bufA = debounce_view <$> bufB ->
  MainFunction_loop R N n btn bufA = Ok bufA' ->
  exists bufB', MainFunction_loop R N n btn bufB = Ok bufB'
                /\ debounce_view <$> bufA' = debounce_view <$> bufB'.
Proof.
  revert btn bufA bufB. induction n as [|n IH]; intros btn bufA bufB Hview H;
    simpl in H |- *.
  - injection H as <-. eauto.
  - inv_bind_as H a Hget. inv_bind_as H a' Hstep. inv_bind_as H bufA1 Hset.
    apply array_get_Ok in Hget as [Hbtn Ha]. apply array_set_Ok in Hset as [_ ->].
    assert (Hb : exists b, bufB !! Z.to_nat btn = Some b
                           /\ debounce_view a = debounce_view b).
    { pose proof (f_equal (fun l => l !! Z.to_nat btn) Hview) as Hl. simpl in Hl.
      rewrite !list_lookup_fmap, Ha in Hl. simpl in Hl.
      destruct (bufB !! Z.to_nat btn) as [b|]; [| discriminate].
      exists b. split; [reflexivity |].
      change (debounce_view <$> Some b) with (Some (debounce_view b)) in Hl.
      congruence. }
    destruct Hb as (b & Hb & Hab).
    destruct (Sample_Button_view R a b a' N Hab Hstep) as (b' & Hb' & Hab').
    assert (Hbi : btn = Z.of_nat (Z.to_nat btn)) by lia.
    generalize dependent (Z.to_nat btn). intros i Ha H Hb Hbi. subst btn.
    rewrite (array_get_Some _ _ _ Hb). cbn [mbind result_bind].
    rewrite Hb'. cbn [mbind result_bind].
    rewrite (array_set_Some _ _ _ b' Hb). cbn [mbind result_bind].
    assert (Hv' : debounce_view <$> <[i:=a']> bufA
                  = debounce_view <$> <[i:=b']> bufB)
      by (rewrite !list_fmap_insert, Hview, Hab'; reflexivity).
    exact (IH _ _ _ Hv' H).
Qed.

(** X12. Fetching an event does not disturb the debouncing: after
    [Buttons_GetEvent], a tick returns whenever the tick without the fetch
    does, and leaves every button with the same phase, sample counter,
    confirmed status and wiring as the tick without the fetch; the two
    keyboards can differ in pending events only. *)
Theorem Buttons_GetEvent_keeps_debouncing (R : PinReader)
    (kb kb1 kb2 : KeyboardType) (Button : Z) (e : BtnEvents) :
  Buttons_GetEvent kb Button = Ok (e, kb1) ->
  Buttons_MainFunction R kb = Ok kb2 ->
  exists kb3,
    Buttons_MainFunction R kb1 = Ok kb3
    /\ debounce_view <$> Kbd.BtnBuffer kb3 = debounce_view <$> Kbd.BtnBuffer kb2
    /\ Kbd.Counter kb3 = Kbd.Counter kb2
    /\ Kbd.Buttons kb3 = Kbd.Buttons kb2
    /\ Kbd.Sample kb3 = Kbd.Sample kb2.
Proof.
  intros Hget Htick.
  assert (Hkb1 : Kbd.Buttons kb1 = Kbd.Buttons kb /\ Kbd.Sample kb1 = Kbd.Sample kb
                 /\ Kbd.Counter kb1 = Kbd.Counter kb
                 /\ debounce_view <$> Kbd.BtnBuffer kb
                    = debounce_view <$> Kbd.BtnBuffer kb1).
  { unfold Buttons_GetEvent in Hget. destruct (Button <=? Kbd.Counter kb).
    - inv_bind_as Hget b Hb. inv_bind_as Hget k Hstore. injection Hget as _ <-.
      apply BtnBuffer_store_Ok in Hstore as (b1 & _ & Hb1 & ->). simpl.
      repeat split. rewrite list_fmap_insert. symmetry. apply list_insert_id.
      rewrite list_lookup_fmap, Hb1. reflexivity.
    - injection Hget as _ <-. auto. }
  destruct Hkb1 as (HB & HS & HC & Hview).
  unfold Buttons_MainFunction in Htick |- *.
  inv_bind_as Htick buf2 Hloop. injection Htick as <-.
  destruct (MainFunction_loop_view R _ _ _ _ _ _ Hview Hloop) as (buf3 & Hloop3 & Hv3).
  rewrite HS, HC, Hloop3. cbn [mbind result_bind].
  eexists. split; [reflexivity |]. simpl. auto.
Qed.

(** X13. Whatever the storage held before, the button that a successful
    [Buttons_Register] returns has no event: [Buttons_GetEvent] with the
    returned index returns none and leaves the keyboard as it is. *)
Theorem Buttons_Register_then_GetEvent (kb : KeyboardType) (Pin Port ActiveLevel : Z) :
  0 <= Kbd.Counter kb < Kbd.Buttons kb ->
  Kbd.Buttons kb < UINT8_MOD ->
  Kbd.Buttons kb <= Z.of_nat (length (Kbd.BtnBuffer kb)) ->
  exists r kb',
    Buttons_Register kb Pin Port ActiveLevel = Ok (r, kb')
    /\ r = Kbd.Counter kb + 1
    /\ Buttons_GetEvent kb' r = Ok (BTN_IDLE, kb').
Proof.
  intros Hc Hcap Hlen.
  destruct (lookup_lt_is_Some_2 (Kbd.BtnBuffer kb) (Z.to_nat (Kbd.Counter kb))
              ltac:(lia)) as [b0 Hb0].
  pose proof (lookup_lt_Some _ _ _ Hb0) as Hlt0.
  eexists _, _. split.
  { apply (Buttons_Register_room kb Pin Port ActiveLevel b0); (assumption || lia). }
  split; [reflexivity |].
  set (b1 := Btn.mk Pin Port (Btn.Counter b0) BTN_IDLE BTN_INACTIVE ActiveLevel ST_IDLE).
  set (kb' := Kbd.mk _ _ _ _).
  assert (Hb1 : Kbd.BtnBuffer kb' !! Z.to_nat (Kbd.Counter kb) = Some b1)
    by (apply list_lookup_insert_eq; exact Hlt0).
  assert (Hle : Z.of_nat (Z.to_nat (Kbd.Counter kb)) + 1 <= Kbd.Counter kb')
    by (subst kb'; simpl; lia).
  pose proof (Buttons_GetEvent_registered kb' _ b1 Hle Hb1) as HG.
  rewrite Z2Nat.id in HG by lia. rewrite HG.
  subst kb' b1. unfold Kbd.set_BtnBuffer, Btn.set_Event. simpl.
  rewrite list_insert_insert_eq. reflexivity.
Qed.

(** ** The further properties at concrete inputs *)

Lemma Queue_refines_fifo_witness :
  exists q,
    Queue_calls (Queue_Init [x00; x00; x00; x00] 2 2)
      [OpWriteData [x01; x02]; OpWriteData [x03; x04]; OpWriteData [x05; x06];
       OpReadData [xff; xff; xff]; OpIsQueueEmpty; OpWriteData [x07; x08];
       OpReadData [xff; xff]; OpReadData [xff; xff]; OpReadData [xff; xff];
       OpIsQueueEmpty]
    = Ok ([OutWriteData TRUE; OutWriteData TRUE; OutWriteData FALSE;
           OutReadData TRUE [x01; x02; xff]; OutIsQueueEmpty FALSE;
           OutWriteData TRUE;
           OutReadData TRUE [x03; x04]; OutReadData TRUE [x07; x08];
           OutReadData FALSE [xff; xff]; OutIsQueueEmpty TRUE], q).
Proof.
  apply (Queue_refines_fifo [x00; x00; x00; x00] 2 2
           [OpWriteData [x01; x02]; OpWriteData [x03; x04]; OpWriteData [x05; x06];
            OpReadData [xff; xff; xff]; OpIsQueueEmpty; OpWriteData [x07; x08];
            OpReadData [xff; xff]; OpReadData [xff; xff]; OpReadData [xff; xff];
            OpIsQueueEmpty]).
  - unfold Queue_storage_ok, UINT8_MOD, UINT32_MOD. simpl. lia.
  - blocks_fit.
Defined.

Lemma Queue_flags_count_witness :
  let q := Que.mk [x01; x02; x03] 3 1 0 1 FALSE FALSE in
  let l := [[x02]; [x03]] in
  Z.of_nat (length l) <= 3
  /\ Que.Head q = (Que.Tail q + Z.of_nat (length l)) mod 3
  /\ (fst (Queue_isQueueEmpty q) = TRUE <-> l = [])
  /\ (Que.Full q = TRUE <-> Z.of_nat (length l) = 3)
  /\ (forall (k : nat) (e : list byte),
        l !! k = Some e ->
        slot (Z.to_nat 1) (Que.Buffer q)
             (Z.to_nat ((Que.Tail q + Z.of_nat k) mod 3)) = e).
Proof.
  apply (Queue_flags_count [x00; x00; x00] 3 1
           [OpWriteData [x01]; OpWriteData [x02]; OpWriteData [x03]; OpReadData [x00]]
           [OutWriteData TRUE; OutWriteData TRUE; OutWriteData TRUE;
            OutReadData TRUE [x01]]
           (Que.mk [x01; x02; x03] 3 1 0 1 FALSE FALSE)).
  - unfold Queue_storage_ok, UINT8_MOD, UINT32_MOD. simpl. lia.
  - blocks_fit.
  - reflexivity.
Defined.

Lemma Queue_WriteData_touches_one_slot_witness :
  let q := Que.mk [x01; x02; x00; x00] 2 2 1 0 FALSE FALSE in
  let q' := Que.mk [x01; x02; x03; x04] 2 2 0 0 FALSE TRUE in
  length (Que.Buffer q') = length (Que.Buffer q)
  /\ (forall p : nat,
        ~ (2 <= Z.of_nat p < 2 + 2) -> Que.Buffer q' !! p = Que.Buffer q !! p)
  /\ Que.Tail q' = Que.Tail q
  /\ Que.Elements q' = Que.Elements q
  /\ Que.Size q' = Que.Size q.
Proof.
  apply (Queue_WriteData_touches_one_slot
           (Que.mk [x01; x02; x00; x00] 2 2 1 0 FALSE FALSE)
           (Que.mk [x01; x02; x03; x04] 2 2 0 0 FALSE TRUE) [x03; x04] TRUE).
  reflexivity.
Defined.

Lemma Queue_ReadData_frame_witness :
  let q := Que.mk [x01; x02; x00; x00] 2 2 1 0 FALSE FALSE in
  let q' := Que.mk [x01; x02; x00; x00] 2 2 1 1 TRUE FALSE in
  Que.Buffer q' = Que.Buffer q
  /\ Que.Head q' = Que.Head q
  /\ Que.Elements q' = Que.Elements q
  /\ Que.Size q' = Que.Size q
  /\ length [x01; x02; xff] = length [xee; xee; xff]
  /\ drop (Z.to_nat 2) [x01; x02; xff] = drop (Z.to_nat 2) [xee; xee; xff].
Proof.
  apply (Queue_ReadData_frame
           (Que.mk [x01; x02; x00; x00] 2 2 1 0 FALSE FALSE)
           (Que.mk [x01; x02; x00; x00] 2 2 1 1 TRUE FALSE)
           [xee; xee; xff] [x01; x02; xff] TRUE).
  reflexivity.
Defined.

Lemma Buttons_MainFunction_each_button_witness :
  (Z.of_nat 0 < Kbd.Counter held_keyboard ->
   exists b b', Kbd.BtnBuffer held_keyboard !! 0%nat = Some b
                /\ Sample_Button (all_pins 0) b (Kbd.Sample held_keyboard) = Ok b'
                /\ [Btn.mk 0 0 0 BTN_PRESSED BTN_ACTIVE 1 ST_RELEASE] !! 0%nat = Some b')
  /\ (Kbd.Counter held_keyboard <= Z.of_nat 0 ->
      [Btn.mk 0 0 0 BTN_PRESSED BTN_ACTIVE 1 ST_RELEASE] !! 0%nat
      = Kbd.BtnBuffer held_keyboard !! 0%nat).
Proof.
  apply (Buttons_MainFunction_each_button (all_pins 0) held_keyboard
           (Kbd.mk 1 1 1 [Btn.mk 0 0 0 BTN_PRESSED BTN_ACTIVE 1 ST_RELEASE])).
  reflexivity.
Defined.

Lemma press_confirmed_after_window_witness :
  (forall k : nat,
      (1 <= k <= Z.to_nat 3)%nat ->
      exists bk, Sample_run (replicate k 1) fresh_button 3 = Ok bk
                 /\ Btn.smState bk = ST_PRESS
                 /\ Btn.Event bk = BTN_IDLE /\ Btn.Status bk = BTN_INACTIVE)
  /\ exists b', Sample_run [1; 1; 1; 1] fresh_button 3 = Ok b'
                /\ Btn.smState b' = ST_HOLD
                /\ Btn.Event b' = BTN_PRESSED /\ Btn.Status b' = BTN_ACTIVE.
Proof.
  apply (press_confirmed_after_window 3 fresh_button).
  - unfold UINT8_MOD. lia.
  - reflexivity.
  - simpl. lia.
  - simpl. lia.
Defined.

Lemma release_confirmed_after_window_witness :
  let b := Btn.mk 0 0 2 BTN_PRESSED BTN_ACTIVE 1 ST_HOLD in
  (exists bk, Sample_run [0; 0] b 2 = Ok bk
              /\ Btn.smState bk = ST_RELEASE
              /\ Btn.Event bk = BTN_PRESSED /\ Btn.Status bk = BTN_ACTIVE)
  /\ (length [0; 0] = Z.to_nat 2 ->
      forall last : Z,
        exists b', Sample_run ([0; 0] ++ [last]) b 2 = Ok b'
                   /\ Btn.smState b' = ST_IDLE
                   /\ Btn.Event b' = BTN_RELEASED
                   /\ Btn.Status b' = BTN_INACTIVE).
Proof.
  apply (release_confirmed_after_window 2
           (Btn.mk 0 0 2 BTN_PRESSED BTN_ACTIVE 1 ST_HOLD) [0; 0]).
  - unfold UINT8_MOD. lia.
  - reflexivity.
  - simpl. lia.
  - simpl. lia.
  - repeat (apply Forall_cons_2; [simpl; lia |]). apply Forall_nil_2.
  - simpl. lia.
Defined.

Lemma status_changes_only_after_window_witness :
  let b := Btn.mk 0 0 1 BTN_IDLE BTN_INACTIVE 1 ST_PRESS in
  let b' := Btn.mk 0 0 2 BTN_PRESSED BTN_ACTIVE 1 ST_HOLD in
  (Btn.Status b = BTN_INACTIVE -> Btn.Status b' = BTN_ACTIVE ->
   exists older, [0; 1; 1] = older ++ replicate (Z.to_nat 2) 1)
  /\ (Btn.Status b = BTN_ACTIVE -> Btn.Status b' = BTN_INACTIVE ->
      exists older recent,
        [0; 1; 1] = older ++ recent /\ length recent = Z.to_nat 2
        /\ Forall (fun x => x <> 1) recent).
Proof.
  apply (status_changes_only_after_window 2 [0; 1; 1] fresh_button
           (Btn.mk 0 0 1 BTN_IDLE BTN_INACTIVE 1 ST_PRESS)
           (Btn.mk 0 0 2 BTN_PRESSED BTN_ACTIVE 1 ST_HOLD) 0).
  - unfold UINT8_MOD. lia.
  - reflexivity.
  - reflexivity.
  - reflexivity.
  - reflexivity.
Defined.

Lemma status_matches_phase_witness :
  let b := Btn.mk 0 0 0 BTN_IDLE BTN_INACTIVE 1 ST_PRESS in
  (Btn.Status b = BTN_ACTIVE <->
   Btn.smState b = ST_HOLD \/ Btn.smState b = ST_RELEASE)
  /\ (Btn.Status b = BTN_INACTIVE <->
      Btn.smState b = ST_IDLE \/ Btn.smState b = ST_PRESS)
  /\ (Btn.smState b = ST_PRESS \/ Btn.smState b = ST_RELEASE ->
      0 <= Btn.Counter b < 3)
  /\ Btn.ActiveLevel b = Btn.ActiveLevel fresh_button.
Proof.
  apply (status_matches_phase 3 [1; 1; 0; 1] fresh_button
           (Btn.mk 0 0 0 BTN_IDLE BTN_INACTIVE 1 ST_PRESS)).
  - unfold UINT8_MOD. lia.
  - reflexivity.
  - reflexivity.
  - reflexivity.
Defined.

Lemma pending_event_survives_ticks_witness :
  Forall (fun kb' => exists b', Kbd.BtnBuffer kb' !! 0%nat = Some b'
                                /\ Btn.Event b' <> BTN_IDLE)
    [held_keyboard;
     Kbd.mk 1 1 1 [Btn.mk 0 0 0 BTN_PRESSED BTN_ACTIVE 1 ST_RELEASE]].
Proof.
  apply (pending_event_survives_ticks [all_pins 1; all_pins 0] held_keyboard
           [held_keyboard;
            Kbd.mk 1 1 1 [Btn.mk 0 0 0 BTN_PRESSED BTN_ACTIVE 1 ST_RELEASE]]
           0 (Btn.mk 0 0 1 BTN_PRESSED BTN_ACTIVE 1 ST_HOLD)).
  - reflexivity.
  - simpl. lia.
  - reflexivity.
  - discriminate.
Defined.

Lemma Register_all_indices_witness :
  exists rets kb',
    Register_all (Buttons_Init 2 3 [zeroed_button; zeroed_button])
      [(5, 1, 0); (6, 2, 1); (7, 3, 1)] = Ok (rets, kb')
    /\ Kbd.Counter kb' = Z.min (Z.of_nat 3) 2
    /\ (forall (k : nat) (cfg : Z * Z * Z),
          [(5, 1, 0); (6, 2, 1); (7, 3, 1)] !! k = Some cfg ->
          rets !! k = Some (if Z.of_nat k <? 2 then Z.of_nat k + 1 else 0)
          /\ (Z.of_nat k < 2 ->
              exists b,
                Kbd.BtnBuffer kb' !! k = Some b
                /\ config b = cfg /\ Btn.Status b = BTN_INACTIVE
                /\ Btn.Event b = BTN_IDLE /\ Btn.smState b = ST_IDLE)).
Proof.
  apply (Register_all_indices 2 3 [zeroed_button; zeroed_button]
           [(5, 1, 0); (6, 2, 1); (7, 3, 1)]).
  - unfold UINT8_MOD. lia.
  - simpl. lia.
Defined.

Lemma Buttons_GetEvent_keeps_debouncing_witness :
  exists kb3,
    Buttons_MainFunction (all_pins 0)
      (Kbd.mk 1 1 1 [Btn.mk 0 0 1 BTN_IDLE BTN_ACTIVE 1 ST_HOLD]) = Ok kb3
    /\ debounce_view <$> Kbd.BtnBuffer kb3
       = debounce_view <$> [Btn.mk 0 0 0 BTN_PRESSED BTN_ACTIVE 1 ST_RELEASE]
    /\ Kbd.Counter kb3 = 1 /\ Kbd.Buttons kb3 = 1 /\ Kbd.Sample kb3 = 1.
Proof.
  apply (Buttons_GetEvent_keeps_debouncing (all_pins 0) held_keyboard
           (Kbd.mk 1 1 1 [Btn.mk 0 0 1 BTN_IDLE BTN_ACTIVE 1 ST_HOLD])
           (Kbd.mk 1 1 1 [Btn.mk 0 0 0 BTN_PRESSED BTN_ACTIVE 1 ST_RELEASE])
           1 BTN_PRESSED).
  - reflexivity.
  - reflexivity.
Defined.

Lemma Buttons_Register_then_GetEvent_witness :
  let kb := Buttons_Init 2 3
              [Btn.mk 9 9 9 BTN_PRESSED BTN_ACTIVE 1 ST_HOLD; zeroed_button] in
  exists r kb',
    Buttons_Register kb 5 1 0 = Ok (r, kb')
    /\ r = Kbd.Counter kb + 1
    /\ Buttons_GetEvent kb' r = Ok (BTN_IDLE, kb').
Proof.
  apply (Buttons_Register_then_GetEvent
           (Buttons_Init 2 3
              [Btn.mk 9 9 9 BTN_PRESSED BTN_ACTIVE 1 ST_HOLD; zeroed_button]) 5 1 0).
  - simpl. lia.
  - unfold UINT8_MOD. simpl. lia.
  - simpl. lia.
Defined.

Lemma Buttons_GetEvent_one_shot_witness :
  exists (b : ButtonType) (kb' kb'' : KeyboardType),
    Kbd.BtnBuffer held_keyboard !! Z.to_nat (1 - 1) = Some b
    /\ Buttons_GetEvent held_keyboard 1 = Ok (Btn.Event b, kb')
    /\ Buttons_GetEvent kb' 1 = Ok (BTN_IDLE, kb'')
    /\ forall (ticks : list PinReader) (kbn : KeyboardType),
         quiet_ticks (Z.to_nat (1 - 1)) ticks kb' kbn ->
         exists kbm, Buttons_GetEvent kbn 1 = Ok (BTN_IDLE, kbm).
Proof.
  apply (Buttons_GetEvent_one_shot held_keyboard 1); simpl; lia.
Defined.

(** The second fetch across ticks, evaluated: after the fetch on
    [held_keyboard], one tick at the active level and one away from it
    confirm no edge, and the next fetch returns no event. *)
Lemma one_shot_across_quiet_ticks :
  let fetched := Kbd.mk 1 1 1 [Btn.mk 0 0 1 BTN_IDLE BTN_ACTIVE 1 ST_HOLD] in
  let kbn := Kbd.mk 1 1 1 [Btn.mk 0 0 0 BTN_IDLE BTN_ACTIVE 1 ST_RELEASE] in
  Buttons_GetEvent held_keyboard 1 = Ok (BTN_PRESSED, fetched)
  /\ quiet_ticks 0 [all_pins 1; all_pins 0] fetched kbn
  /\ Buttons_GetEvent kbn 1 = Ok (BTN_IDLE, kbn).
Proof.
  split; [reflexivity |]. split; [| reflexivity].
  simpl. eexists _, _, _. split; [reflexivity |].
  split; [reflexivity |]. split; [reflexivity |]. split; [reflexivity |].
  eexists _, _, _. split; [reflexivity |].
  split; [reflexivity |]. split; [reflexivity |]. split; reflexivity.
Qed.
